(** * The use-case diagram editor: model and verified properties

    A shallow embedding of the editing code of the diagram application:

    - [DiagramEditor] (the React component holding the node and edge
      collections): [generateNodeId], [onConnect], [onDrop],
      [handleDeleteSelected];
    - the custom nodes [ActorNode], [UseCaseNode], [SystemNode] with their
      connection handles and the in-place label editor [EditableLabel]
      (the revision of the node components whose handles carry ids);
    - the custom edges [AssociationEdge], [DependencyEdge] with the label
      editor [EditableEdgeLabel].

    React state ([useNodesState], [useEdgesState], [useState]) and the
    module-level id counter are threaded explicitly through a record
    [Editor]; a handler is a function from the state before to the state
    after.  Code that can throw lives in the small [Completion] monad. *)

From Stdlib Require Import List String Ascii Bool Arith ZArith NArith Lia.
From Stdlib Require Import DecimalString DecimalN DecimalZ Sorted.
Import ListNotations.
Open Scope string_scope.

(* ====================================================================== *)
(** ** JavaScript values used by the editor *)
(* ====================================================================== *)

Module JS.

(** Strings are sequences of UTF-16 code units.  The model keeps the code
    units below 256 (one [ascii] each): this covers every string the
    editor itself writes (type tags, ids, default labels, guillemets). *)

(** [!!s] for a string: only the empty string is falsy. *)
Definition truthy (s : string) : bool := negb (s =? "").

(** [a || b] on strings. *)
Definition or (a b : string) : string := if truthy a then a else b.

(** White space as [String.prototype.trim] sees it, in the range of the
    model: TAB, LF, VT, FF, CR, SPACE and NO-BREAK SPACE. *)
Definition isWhiteSpace (c : ascii) : bool :=
  let n := nat_of_ascii c in
  ((9 <=? n) && (n <=? 13) || (n =? 32) || (n =? 160))%nat.

Fixpoint trimStart (s : string) : string :=
  match s with
  | EmptyString => EmptyString
  | String c r => if isWhiteSpace c then trimStart r else s
  end.

Fixpoint trimEnd (s : string) : string :=
  match s with
  | EmptyString => EmptyString
  | String c r =>
      let r' := trimEnd r in
      if isWhiteSpace c && (r' =? "") then EmptyString else String c r'
  end.

(** [s.trim()] *)
Definition trim (s : string) : string := trimEnd (trimStart s).

(** Upper case of one code unit, as [String.prototype.toUpperCase] gives
    it: an ASCII letter and a Latin-1 letter with a capital below 256
    move down by 32, the sharp s (223) becomes two capital S, every other
    code unit stays.  Two capitals lie outside the alphabet of the model,
    U+039C for the micro sign (181) and U+0178 for the y with diaeresis
    (255): these two code units are left as they are here, and the
    statements that say what an upper-cased text is leave them out. *)
Definition toUpperCaseUnit (c : ascii) : string :=
  let n := nat_of_ascii c in
  if ((97 <=? n) && (n <=? 122)
      || (224 <=? n) && (n <=? 254) && negb (n =? 247))%nat
  then String (ascii_of_nat (n - 32)) EmptyString
  else if (n =? 223)%nat then "SS"
  else String c EmptyString.

(** [s.toUpperCase()] *)
Fixpoint toUpperCase (s : string) : string :=
  match s with
  | EmptyString => EmptyString
  | String c r => toUpperCaseUnit c ++ toUpperCase r
  end.

(** [s.charAt(i)]: a string of length one, or the empty string. *)
Definition charAt (s : string) (i : nat) : string :=
  match String.get i s with
  | Some c => String c EmptyString
  | None => EmptyString
  end.

(** [s.slice(i)] for a non-negative start index. *)
Fixpoint slice (s : string) (i : nat) {struct i} : string :=
  match i, s with
  | O, _ => s
  | S k, String _ r => slice r k
  | S _, EmptyString => EmptyString
  end.

(** [`${n}`] for the integers the editor prints: the id counter, which
    starts at 1 and is only ever incremented, and the clock reading of
    [Date.now()].  Both print in plain decimal notation. *)
Definition ofN (n : N) : string := NilEmpty.string_of_uint (N.to_uint n).
Definition ofZ (z : Z) : string := NilEmpty.string_of_int (Z.to_int z).

(** The one exception the editor can meet: [JSON.parse] on malformed
    text. *)
Inductive Error := SyntaxError.

(** Outcome of running a piece of code: a value, or a thrown error. *)
Inductive Completion (A : Type) : Type :=
| Normal (a : A)
| Throw (e : Error).
Arguments Normal {A} a.
Arguments Throw {A} e.

Definition bind {A B} (c : Completion A) (k : A -> Completion B)
  : Completion B :=
  match c with
  | Normal a => k a
  | Throw e => Throw e
  end.

(** [try { body } catch { handler }] *)
Definition try_catch {A} (body : Completion A)
           (handler : Error -> Completion A) : Completion A :=
  match body with
  | Normal a => Normal a
  | Throw e => handler e
  end.

End JS.

Notation "x <- c ;; k" := (JS.bind c (fun x => k))
  (at level 61, c at next level, right associativity).

(* ====================================================================== *)
(** ** Nodes and their handles *)
(* ====================================================================== *)

Record XYPosition := { x : Z; y : Z }.

Module NodeData.
(** [ActorNodeData], [UseCaseNodeData], [SystemNodeData]: [{ label }]. *)
Record t := mk { label : string }.
End NodeData.

Module Node.
Record t := mk {
  id : string;
  type : string;
  position : XYPosition;
  data : NodeData.t;
  selected : bool  (* an absent flag is falsy *)
}.

(** [{ ...node, data: { ...node.data, label } }] *)
Definition with_label (n : t) (l : string) : t :=
  mk (id n) (type n) (position n) (NodeData.mk l) (selected n).

(** [{ ...node, selected }] *)
Definition with_selected (n : t) (b : bool) : t :=
  mk (id n) (type n) (position n) (data n) b.
End Node.

Module HandleType.
Inductive t := source | target.
End HandleType.

Module Position.
Inductive t := Left | Top | Right | Bottom.
End Position.

Module Handle.
(** One [<Handle type=... position=... id=... />] element. *)
Record t := mk { type : HandleType.t; position : Position.t; id : string }.
End Handle.

(** The handles each node component renders, in the order of the source. *)
Definition ActorNode : list Handle.t :=
  [ Handle.mk HandleType.source Position.Right "right-source";
    Handle.mk HandleType.target Position.Right "right-target";
    Handle.mk HandleType.source Position.Left "left-source";
    Handle.mk HandleType.target Position.Left "left-target" ].

Definition UseCaseNode : list Handle.t :=
  [ Handle.mk HandleType.source Position.Left "left-source";
    Handle.mk HandleType.target Position.Left "left-target";
    Handle.mk HandleType.source Position.Right "right-source";
    Handle.mk HandleType.target Position.Right "right-target";
    Handle.mk HandleType.source Position.Top "top-source";
    Handle.mk HandleType.target Position.Top "top-target";
    Handle.mk HandleType.source Position.Bottom "bottom-source";
    Handle.mk HandleType.target Position.Bottom "bottom-target" ].

Definition SystemNode : list Handle.t :=
  [ Handle.mk HandleType.source Position.Left "left-source";
    Handle.mk HandleType.target Position.Left "left-target";
    Handle.mk HandleType.source Position.Right "right-source";
    Handle.mk HandleType.target Position.Right "right-target" ].

(** The node type registry: type tag to component. *)
Definition useCaseNodeTypes (type : string) : option (list Handle.t) :=
  if type =? "actor" then Some ActorNode
  else if type =? "usecase" then Some UseCaseNode
  else if type =? "system" then Some SystemNode
  else None.

(** The handle set of a node, from its type tag alone.  A tag outside the
    registry has no component of this application, hence none of its
    handles. *)
Definition handlesFor (type : string) : list Handle.t :=
  match useCaseNodeTypes type with
  | Some hs => hs
  | None => []
  end.

Definition handleIds (type : string) : list string :=
  map Handle.id (handlesFor type).

(** Does the node type expose a handle of this kind on this side? *)
Definition Position_eqb (p q : Position.t) : bool :=
  match p, q with
  | Position.Left, Position.Left | Position.Top, Position.Top
  | Position.Right, Position.Right | Position.Bottom, Position.Bottom => true
  | _, _ => false
  end.

Definition HandleType_eqb (a b : HandleType.t) : bool :=
  match a, b with
  | HandleType.source, HandleType.source
  | HandleType.target, HandleType.target => true
  | _, _ => false
  end.

Definition exposes (type : string) (k : HandleType.t) (p : Position.t)
  : bool :=
  existsb (fun h => HandleType_eqb (Handle.type h) k
                    && Position_eqb (Handle.position h) p)
          (handlesFor type).

(* ====================================================================== *)
(** ** Edges *)
(* ====================================================================== *)

Inductive DependencyType := include | extend.

Definition DependencyType_name (k : DependencyType) : string :=
  match k with
  | include => "include"
  | extend => "extend"
  end.

Module EdgeData.
(** [DependencyEdgeData]: [{ label?, type? }]; an association edge only
    uses [label]. *)
Record t := mk { label : option string; type : option DependencyType }.
End EdgeData.

Inductive MarkerType := Arrow | ArrowClosed.

Record EdgeMarker := { marker_type : MarkerType; width : Z; height : Z }.

Module Edge.
Record t := mk {
  id : string;
  type : string;
  source : string;
  target : string;
  sourceHandle : option string;   (* [string | null] *)
  targetHandle : option string;
  markerEnd : option EdgeMarker;
  data : option EdgeData.t;       (* [undefined] is [None] *)
  selected : bool
}.

Definition with_data (e : t) (d : option EdgeData.t) : t :=
  mk (id e) (type e) (source e) (target e) (sourceHandle e)
     (targetHandle e) (markerEnd e) d (selected e).

Definition with_selected (e : t) (b : bool) : t :=
  mk (id e) (type e) (source e) (target e) (sourceHandle e)
     (targetHandle e) (markerEnd e) (data e) b.

(** [edge.data?.label] and [edge.data?.type] *)
Definition label (e : t) : option string :=
  match data e with
  | Some d => EdgeData.label d
  | None => None
  end.

Definition dependencyType (e : t) : option DependencyType :=
  match data e with
  | Some d => EdgeData.type d
  | None => None
  end.
End Edge.

(** What React Flow hands to [onConnect]. *)
Record Connection := {
  source : string;
  target : string;
  sourceHandle : option string;
  targetHandle : option string
}.

(** Functions of the React Flow library ([@xyflow/react]) the editor
    calls.  The library is a dependency, not part of the repository; the
    definitions follow its published behaviour. *)
Module ReactFlow.

Definition option_string_eqb (a b : option string) : bool :=
  match a, b with
  | Some s, Some t => s =? t
  | None, None => true
  | _, _ => false
  end.

Definition handle_falsy (h : option string) : bool :=
  match h with
  | Some s => negb (JS.truthy s)
  | None => true
  end.

(** An edge between the same two nodes through the same two handles. *)
Definition connectionExists (edge : Edge.t) (edges : list Edge.t) : bool :=
  existsb
    (fun el =>
       (Edge.source el =? Edge.source edge)
       && (Edge.target el =? Edge.target edge)
       && (option_string_eqb (Edge.sourceHandle el) (Edge.sourceHandle edge)
           || handle_falsy (Edge.sourceHandle el)
              && handle_falsy (Edge.sourceHandle edge))
       && (option_string_eqb (Edge.targetHandle el) (Edge.targetHandle edge)
           || handle_falsy (Edge.targetHandle el)
              && handle_falsy (Edge.targetHandle edge)))
    edges.

(** [addEdge(edge, edges)]: the list itself when the edge lacks a source
    or a target or when the connection already exists, the list with
    the edge at its end otherwise. *)
Definition addEdge (edge : Edge.t) (edges : list Edge.t) : list Edge.t :=
  if negb (JS.truthy (Edge.source edge))
     || negb (JS.truthy (Edge.target edge))
  then edges
  else if connectionExists edge edges then edges
  else (edges ++ [edge])%list.

(** A selection change as [applyNodeChanges] / [applyEdgeChanges] carry
    it out: the element with the id gets the flag. *)
Definition selectNode (id : string) (b : bool) (nodes : list Node.t)
  : list Node.t :=
  map (fun n => if Node.id n =? id then Node.with_selected n b else n)
      nodes.

Definition selectEdge (id : string) (b : bool) (edges : list Edge.t)
  : list Edge.t :=
  map (fun e => if Edge.id e =? id then Edge.with_selected e b else e)
      edges.

End ReactFlow.

(* ====================================================================== *)
(** ** The editor state *)
(* ====================================================================== *)

(** [nodes] and [edges] are the two React Flow collections,
    [selectedEdgeType] the edge type chosen in the sidebar, and
    [nodeIdCounter] the module-level counter behind [generateNodeId] (a
    JavaScript number; its increments are exact below 2^53, a bound no
    editing session reaches). *)
Record Editor := {
  nodes : list Node.t;
  edges : list Edge.t;
  selectedEdgeType : string;
  nodeIdCounter : N
}.

(** The editor as it first mounts on the editor page: [defaultNodes],
    [defaultEdges], ['association'], counter at 1.  The counter is a
    variable of the module: it is 1 when the module is loaded, and a
    later mount of the component finds it where earlier drops left it. *)
Definition defaultEditor : Editor :=
  {| nodes := []; edges := [];
     selectedEdgeType := "association"; nodeIdCounter := 1 |}.

Definition setNodes (f : list Node.t -> list Node.t) (st : Editor) : Editor :=
  {| nodes := f (nodes st); edges := edges st;
     selectedEdgeType := selectedEdgeType st;
     nodeIdCounter := nodeIdCounter st |}.

Definition setEdges (f : list Edge.t -> list Edge.t) (st : Editor) : Editor :=
  {| nodes := nodes st; edges := f (edges st);
     selectedEdgeType := selectedEdgeType st;
     nodeIdCounter := nodeIdCounter st |}.

Definition setSelectedEdgeType (type : string) (st : Editor) : Editor :=
  {| nodes := nodes st; edges := edges st;
     selectedEdgeType := type;
     nodeIdCounter := nodeIdCounter st |}.

(** [generateNodeId()]: [`node_${nodeIdCounter++}`]. *)
Definition generateNodeId (st : Editor) : string * Editor :=
  ("node_" ++ JS.ofN (nodeIdCounter st),
   {| nodes := nodes st; edges := edges st;
      selectedEdgeType := selectedEdgeType st;
      nodeIdCounter := N.succ (nodeIdCounter st) |}).

(* ====================================================================== *)
(** ** Connecting: [onConnect] *)
(* ====================================================================== *)

(** [`edge_${Date.now()}`], for the clock reading [now]. *)
Definition edgeId (now : Z) : string := "edge_" ++ JS.ofZ now.

(** The edge object [onConnect] builds from a connection. *)
Definition newEdge (selectedEdgeType : string) (params : Connection)
           (now : Z) : Edge.t :=
  {| Edge.source := source params;
     Edge.target := target params;
     Edge.sourceHandle := sourceHandle params;
     Edge.targetHandle := targetHandle params;
     Edge.id := edgeId now;
     Edge.type := selectedEdgeType;
     Edge.markerEnd :=
       Some {| marker_type := ArrowClosed; width := 20; height := 20 |};
     Edge.data :=
       if selectedEdgeType =? "dependency"
       then Some (EdgeData.mk None (Some include))
       else None;
     Edge.selected := false |}.

Definition onConnect (st : Editor) (params : Connection) (now : Z)
  : Editor :=
  setEdges (fun eds =>
              ReactFlow.addEdge (newEdge (selectedEdgeType st) params now) eds)
           st.

(* ====================================================================== *)
(** ** Dropping a shape: [onDrop] *)
(* ====================================================================== *)

(** The text under ['application/reactflow-data'], by what [JSON.parse]
    makes of it: it throws ([NotJson]), or it returns a value ([Json]),
    of which the spread [{ ...data, ...parsed }] only sees the [label]
    property, when there is one (a string, as the node data types have
    it). *)
Inductive DataBlob :=
| NotJson
| Json (label : option string).

(** A drop event: the two entries of its [dataTransfer], and the point
    [screenToFlowPosition] returns for its client coordinates. *)
Record DragEvent := {
  reactflow_type : string;
  reactflow_data : DataBlob;
  flowPosition : XYPosition
}.

Definition JSON_parse (dataString : DataBlob)
  : JS.Completion (option string) :=
  match dataString with
  | NotJson => JS.Throw JS.SyntaxError
  | Json l => JS.Normal l
  end.

(** [{ ...data, ...parsed }] *)
Definition spread (data : NodeData.t) (parsed : option string) : NodeData.t :=
  match parsed with
  | Some l => NodeData.mk l
  | None => data
  end.

Definition onDrop (st : Editor) (event : DragEvent) : JS.Completion Editor :=
  let type := reactflow_type event in
  let dataString := reactflow_data event in
  if negb (JS.truthy type) then JS.Normal st
  else
    let position := flowPosition event in
    let data0 :=
      NodeData.mk (JS.toUpperCase (JS.charAt type 0) ++ JS.slice type 1) in
    data <- JS.try_catch
              (parsed <- JSON_parse dataString ;;
               JS.Normal (spread data0 parsed))
              (fun _ => JS.Normal data0) ;;
    let '(id, st1) := generateNodeId st in
    let newNode := Node.mk id type position data false in
    JS.Normal (setNodes (fun nds => (nds ++ [newNode])%list) st1).

(* ====================================================================== *)
(** ** Deleting the selection: [handleDeleteSelected] *)
(* ====================================================================== *)

Definition handleDeleteSelected (st : Editor) : Editor :=
  setEdges (fun eds => filter (fun e => negb (Edge.selected e)) eds)
    (setNodes (fun nds => filter (fun n => negb (Node.selected n)) nds) st).

(* ====================================================================== *)
(** ** Editing labels *)
(* ====================================================================== *)

(** [EditableLabel.handleSave], for the editor of node [nodeId] showing
    [value], with [editValue] in the input box. *)
Definition EditableLabel_handleSave (nodeId value editValue : string)
           (st : Editor) : Editor :=
  let trimmedValue := JS.trim editValue in
  if JS.truthy trimmedValue && negb (trimmedValue =? value)
  then setNodes
         (map (fun node =>
                 if Node.id node =? nodeId
                 then Node.with_label node trimmedValue
                 else node))
         st
  else st.

(** [EditableEdgeLabel.handleSave], for the editor of edge [edgeId]
    showing [value]. *)
Definition EditableEdgeLabel_handleSave (edgeId value editValue : string)
           (st : Editor) : Editor :=
  let trimmedValue := JS.trim editValue in
  if negb (trimmedValue =? value)
  then setEdges
         (map (fun edge =>
                 if Edge.id edge =? edgeId
                 then Edge.with_data edge
                        (Some (EdgeData.mk (Some trimmedValue)
                                           (Edge.dependencyType edge)))
                 else edge))
         st
  else st.

(** The label a dependency edge shows:
    [data?.label || (data?.type ? `«${data.type}»` : '')]. *)
Definition guillemets (s : string) : string :=
  String "171"%char (s ++ String "187"%char EmptyString).

Definition DependencyEdge_label (data : option EdgeData.t) : string :=
  let stored :=
    match data with
    | Some d => match EdgeData.label d with Some l => l | None => "" end
    | None => ""
    end in
  JS.or stored
        (match data with
         | Some d =>
             match EdgeData.type d with
             | Some k => guillemets (DependencyType_name k)
             | None => ""
             end
         | None => ""
         end).

(** [value] of the label editor an edge renders, when it renders one:
    [AssociationEdge] under [data?.label &&], [DependencyEdge] under
    [label &&]; an edge of another type has no component of this
    application. *)
Definition edgeLabelEditor (e : Edge.t) : option string :=
  if Edge.type e =? "association" then
    match Edge.label e with
    | Some l => if JS.truthy l then Some l else None
    | None => None
    end
  else if Edge.type e =? "dependency" then
    let label := DependencyEdge_label (Edge.data e) in
    if JS.truthy label then Some label else None
  else None.

(* ====================================================================== *)
(** ** Editing sessions *)
(* ====================================================================== *)

(** What a user can do to the editor through the handlers of the source.
    A label editor belongs to one rendered element, named here by its
    place in the collection.  Removal with the Delete or Backspace key is
    carried out inside React Flow ([deleteKeyCode], [onNodesChange]) and
    is not one of these operations: no statement below relies on nodes
    disappearing only through [DeleteSelected]. *)
Inductive Op :=
| Drop (event : DragEvent)
| Connect (params : Connection) (now : Z)
| SetSelectedEdgeType (type : string)
| SelectNode (id : string) (selected : bool)
| SelectEdge (id : string) (selected : bool)
| DeleteSelected
| RelabelNode (i : nat) (editValue : string)
| RelabelEdge (i : nat) (editValue : string).

Definition step (st : Editor) (op : Op) : JS.Completion Editor :=
  match op with
  | Drop event => onDrop st event
  | Connect params now => JS.Normal (onConnect st params now)
  | SetSelectedEdgeType type => JS.Normal (setSelectedEdgeType type st)
  | SelectNode id b => JS.Normal (setNodes (ReactFlow.selectNode id b) st)
  | SelectEdge id b => JS.Normal (setEdges (ReactFlow.selectEdge id b) st)
  | DeleteSelected => JS.Normal (handleDeleteSelected st)
  | RelabelNode i editValue =>
      match nth_error (nodes st) i with
      | Some n =>
          JS.Normal (EditableLabel_handleSave
                       (Node.id n) (NodeData.label (Node.data n))
                       editValue st)
      | None => JS.Normal st
      end
  | RelabelEdge i editValue =>
      match nth_error (edges st) i with
      | Some e =>
          match edgeLabelEditor e with
          | Some value =>
              JS.Normal (EditableEdgeLabel_handleSave
                           (Edge.id e) value editValue st)
          | None => JS.Normal st
          end
      | None => JS.Normal st
      end
  end.

Fixpoint run (st : Editor) (ops : list Op) : JS.Completion Editor :=
  match ops with
  | [] => JS.Normal st
  | op :: rest => st' <- step st op ;; run st' rest
  end.

(* ====================================================================== *)
(** ** Structural validity of a diagram *)
(* ====================================================================== *)

(** The editor has no validity check of its own.  [validate] is the
    structural check of the specification, over the two collections: ids
    unique, every edge end an existing node, every handle id a handle of
    its node (by the node's type tag). *)

Definition mem (s : string) (l : list string) : bool :=
  existsb (String.eqb s) l.

Fixpoint unique (l : list string) : bool :=
  match l with
  | [] => true
  | a :: r => negb (mem a r) && unique r
  end.

Definition findNode (nds : list Node.t) (id : string) : option Node.t :=
  find (fun n => Node.id n =? id) nds.

Definition handleOf (nds : list Node.t) (nodeId : string)
           (handle : option string) : bool :=
  match findNode nds nodeId, handle with
  | Some n, Some h => mem h (handleIds (Node.type n))
  | _, _ => false
  end.

Definition endsExist (nds : list Node.t) (e : Edge.t) : bool :=
  mem (Edge.source e) (map Node.id nds)
  && mem (Edge.target e) (map Node.id nds).

Definition handlesValid (nds : list Node.t) (e : Edge.t) : bool :=
  handleOf nds (Edge.source e) (Edge.sourceHandle e)
  && handleOf nds (Edge.target e) (Edge.targetHandle e).

Definition validate (st : Editor) : bool :=
  unique (map Node.id (nodes st))
  && unique (map Edge.id (edges st))
  && forallb (endsExist (nodes st)) (edges st)
  && forallb (handlesValid (nodes st)) (edges st).

(** What the editor leaves to its caller.  A connection is well formed
    when both ends name a handle of an existing node and the clock reading
    gives an id no edge carries yet; a selection is closed when every edge
    at a selected node is selected with it. *)
Definition connectOk (st : Editor) (params : Connection) (now : Z) : bool :=
  handleOf (nodes st) (source params) (sourceHandle params)
  && handleOf (nodes st) (target params) (targetHandle params)
  && negb (mem (edgeId now) (map Edge.id (edges st))).

Definition nodeSelected (nds : list Node.t) (id : string) : bool :=
  existsb (fun n => (Node.id n =? id) && Node.selected n) nds.

Definition selectionClosed (st : Editor) : bool :=
  forallb (fun e => Edge.selected e
                    || negb (nodeSelected (nodes st) (Edge.source e))
                       && negb (nodeSelected (nodes st) (Edge.target e)))
          (edges st).

Definition requestOk (st : Editor) (op : Op) : bool :=
  match op with
  | Connect params now => connectOk st params now
  | DeleteSelected => selectionClosed st
  | _ => true
  end.

Fixpoint requestsOk (st : Editor) (ops : list Op) : bool :=
  match ops with
  | [] => true
  | op :: rest =>
      requestOk st op
      && match step st op with
         | JS.Normal st' => requestsOk st' rest
         | JS.Throw _ => false
         end
  end.

(** The clock readings a session hands to [onConnect], in order. *)
Fixpoint stamps (ops : list Op) : list Z :=
  match ops with
  | [] => []
  | Connect _ now :: rest => now :: stamps rest
  | _ :: rest => stamps rest
  end.

(** Ids handed out by the counter: every node id on the canvas is
    [node_k] for some [k] the counter has passed. *)
Definition issuedId (counter : N) (id : string) : Prop :=
  exists k : N, (k < counter)%N /\ id = "node_" ++ JS.ofN k.

Definition issued (st : Editor) : Prop :=
  Forall (issuedId (nodeIdCounter st)) (map Node.id (nodes st)).

(** Every edge id comes from one of the clock readings [used]. *)
Definition stampedId (used : list Z) (id : string) : Prop :=
  exists t : Z, In t used /\ id = edgeId t.

Definition stamped (used : list Z) (st : Editor) : Prop :=
  Forall (stampedId used) (map Edge.id (edges st)).

(** Shapes of handle sets: a source and a target handle on each of the
    four sides, or on the left and the right side only. *)
Definition fourSided (type : string) : Prop :=
  forall (k : HandleType.t) (p : Position.t), exposes type k p = true.

Definition leftRightOnly (type : string) : Prop :=
  forall (k : HandleType.t) (p : Position.t),
    exposes type k p
    = (Position_eqb p Position.Left || Position_eqb p Position.Right).

(** What validity reads of a node and of an edge. *)
Definition nodeKey (n : Node.t) : string * string :=
  (Node.id n, Node.type n).

Definition edgeKey (e : Edge.t)
  : string * (string * option string) * (string * option string) :=
  (Edge.id e,
   (Edge.source e, Edge.sourceHandle e),
   (Edge.target e, Edge.targetHandle e)).

Definition keyHandleOf (keys : list (string * string)) (nodeId : string)
           (handle : option string) : bool :=
  match find (fun k => fst k =? nodeId) keys, handle with
  | Some k, Some h => mem h (handleIds (snd k))
  | _, _ => false
  end.

Definition keyHandlesValid (keys : list (string * string))
           (k : string * (string * option string) * (string * option string))
  : bool :=
  keyHandleOf keys (fst (snd (fst k))) (snd (snd (fst k)))
  && keyHandleOf keys (fst (snd k)) (snd (snd k)).

(** Edge ids unique and every edge on handles of existing nodes. *)
Definition wellFormed (st : Editor) : Prop :=
  NoDup (map Edge.id (edges st))
  /\ forallb (handlesValid (nodes st)) (edges st) = true.

(* ====================================================================== *)
(** ** Sample sessions *)
(* ====================================================================== *)

Module Sample.

Definition origin : XYPosition := {| x := 0; y := 0 |}.

(** The drops the shapes sidebar produces. *)
Definition dropActor : DragEvent :=
  {| reactflow_type := "actor"; reactflow_data := Json (Some "Actor");
     flowPosition := origin |}.

Definition dropUseCase : DragEvent :=
  {| reactflow_type := "usecase"; reactflow_data := Json (Some "Use Case");
     flowPosition := {| x := 200; y := 0 |} |}.

Definition dropCustomer : DragEvent :=
  {| reactflow_type := "actor"; reactflow_data := Json (Some "Customer");
     flowPosition := origin |}.

Definition dropCheckout : DragEvent :=
  {| reactflow_type := "usecase"; reactflow_data := Json (Some "Checkout");
     flowPosition := {| x := 200; y := 0 |} |}.

(** A drop without a type tag, and one whose data is not JSON. *)
Definition dropNothing : DragEvent :=
  {| reactflow_type := ""; reactflow_data := Json (Some "Actor");
     flowPosition := origin |}.

Definition dropBroken : DragEvent :=
  {| reactflow_type := "system"; reactflow_data := NotJson;
     flowPosition := origin |}.

(** Actor to use case, right side to left side. *)
Definition actorToUseCase : Connection :=
  {| source := "node_1"; target := "node_2";
     sourceHandle := Some "right-source";
     targetHandle := Some "left-target" |}.

Definition actorToThird : Connection :=
  {| source := "node_1"; target := "node_3";
     sourceHandle := Some "right-source";
     targetHandle := Some "left-target" |}.

(** A connection from a handle the actor does not have. *)
Definition fromMissingHandle : Connection :=
  {| source := "node_1"; target := "node_2";
     sourceHandle := Some "centre-source";
     targetHandle := Some "left-target" |}.

Definition noon : Z := 1768219200000.

(** An actor and a use case on the canvas. *)
Definition twoNodes : Editor :=
  {| nodes :=
       [ Node.mk "node_1" "actor" origin (NodeData.mk "Actor") false;
         Node.mk "node_2" "usecase" {| x := 200; y := 0 |}
                 (NodeData.mk "Use Case") false ];
     edges := [];
     selectedEdgeType := "association";
     nodeIdCounter := 3 |}.

(** The same, joined by an association, with the actor selected. *)
Definition actorSelected : Editor :=
  {| nodes :=
       [ Node.mk "node_1" "actor" origin (NodeData.mk "Actor") true;
         Node.mk "node_2" "usecase" {| x := 200; y := 0 |}
                 (NodeData.mk "Use Case") false ];
     edges := [ newEdge "association" actorToUseCase noon ];
     selectedEdgeType := "association";
     nodeIdCounter := 3 |}.

(** A dependency edge whose label the user has set. *)
Definition labelled : Edge.t :=
  Edge.with_data (newEdge "dependency" actorToUseCase noon)
                 (Some (EdgeData.mk (Some "uses") (Some include))).

Definition withLabelledEdge : Editor :=
  {| nodes := nodes twoNodes;
     edges := [ labelled ];
     selectedEdgeType := "dependency";
     nodeIdCounter := 3 |}.

(** A connection to a node that is not on the canvas. *)
Definition toNowhere : Connection :=
  {| source := "node_1"; target := "node_7";
     sourceHandle := Some "right-source";
     targetHandle := Some "left-target" |}.

(** The editor mounted with [initialNodes] holding a node of an earlier
    page load: the counter starts at 1 again. *)
Definition reloaded : Editor :=
  {| nodes := [ Node.mk "node_1" "actor" origin (NodeData.mk "Actor") false ];
     edges := [];
     selectedEdgeType := "association";
     nodeIdCounter := 1 |}.

(** Sessions. *)
Definition connectToNowhere : list Op :=
  [ Drop dropActor; Connect toNowhere noon ].

Definition deleteActor : list Op :=
  [ Drop dropActor; Drop dropUseCase; Connect actorToUseCase noon;
    SelectNode "node_1" true; DeleteSelected ].

Definition twoConnectsAtOnce : list Op :=
  [ Drop dropActor; Drop dropUseCase; Drop dropUseCase;
    Connect actorToUseCase noon; Connect actorToThird noon ].

Definition labelDependency : list Op :=
  [ Drop dropActor; Drop dropUseCase; SetSelectedEdgeType "dependency";
    Connect actorToUseCase noon; RelabelEdge 0 "uses" ].

(** Everything the editor offers, with the edge selected along with
    its node before the deletion. *)
Definition tidy : list Op :=
  [ Drop dropCustomer; Drop dropCheckout; Drop dropBroken;
    Connect actorToUseCase noon;
    SetSelectedEdgeType "dependency";
    Connect actorToThird (noon + 1);
    RelabelNode 0 " New "; RelabelEdge 1 "uses";
    SelectNode "node_3" true; SelectEdge (edgeId (noon + 1)) true;
    DeleteSelected ].

End Sample.

(* ====================================================================== *)
(** ** The toolbar, the mini map and the shapes sidebar *)
(* ====================================================================== *)

(** What the editor computes for its toolbar on every render. *)
Definition selectedNodesCount (st : Editor) : nat :=
  List.length (filter (fun n => Node.selected n) (nodes st)).

Definition selectedEdgesCount (st : Editor) : nat :=
  List.length (filter (fun e => Edge.selected e) (edges st)).

Definition hasSelection (st : Editor) : bool :=
  (0 <? selectedNodesCount st)%nat || (0 <? selectedEdgesCount st)%nat.

(** The [nodeColor] callback of the mini map, on the node's type tag. *)
Definition nodeColor (type : string) : string :=
  if type =? "actor" then "#667eea"
  else if type =? "usecase" then "#764ba2"
  else if type =? "system" then "#444466"
  else "#6b7280".

Module Category.
Inductive t := nodes | edges.
End Category.

Module ShapeDefinition.
(** An entry of the palette.  [defaultData] is optional, and so is the
    [label] inside it; the icon is markup and left out. *)
Record t := mk {
  type : string;
  label : string;
  description : string;
  category : Category.t;
  defaultData : option (option string)
}.
End ShapeDefinition.

Definition useCaseShapes : list ShapeDefinition.t :=
  [ ShapeDefinition.mk "actor" "Actor" "Person or system that interacts"
                       Category.nodes (Some (Some "Actor"));
    ShapeDefinition.mk "usecase" "Use Case" "System functionality or action"
                       Category.nodes (Some (Some "Use Case"));
    ShapeDefinition.mk "system" "System" "System boundary container"
                       Category.nodes (Some (Some "System")) ].

Definition useCaseConnections : list ShapeDefinition.t :=
  [ ShapeDefinition.mk "association" "Association" "Solid line connection"
                       Category.edges None;
    ShapeDefinition.mk "dependency" "Dependency"
                       "Dashed line (include/extend)"
                       Category.edges None ].

(** The two entries of a drag's [dataTransfer] the editor reads.  An entry
    never set reads as the empty string, which is not JSON. *)
Record DataTransfer := {
  transfer_type : string;
  transfer_data : DataBlob
}.

Definition newDataTransfer : DataTransfer :=
  {| transfer_type := ""; transfer_data := NotJson |}.

(** [JSON.stringify(shape.defaultData || {})], as the text [JSON.parse]
    reads back: an object with the label the data had, if it had one. *)
Definition JSON_stringify (defaultData : option (option string)) : DataBlob :=
  match defaultData with
  | Some (Some l) => Json (Some l)
  | _ => Json None
  end.

(** [ShapesSidebar.handleDragStart] *)
Definition handleDragStart (dataTransfer : DataTransfer)
           (shape : ShapeDefinition.t) : DataTransfer :=
  match ShapeDefinition.category shape with
  | Category.edges => dataTransfer
  | Category.nodes =>
      {| transfer_type := ShapeDefinition.type shape;
         transfer_data := JSON_stringify (ShapeDefinition.defaultData shape) |}
  end.

(** The drop event that ends a drag at a point of the canvas. *)
Definition dropAt (dataTransfer : DataTransfer) (position : XYPosition)
  : DragEvent :=
  {| reactflow_type := transfer_type dataTransfer;
     reactflow_data := transfer_data dataTransfer;
     flowPosition := position |}.

(** The label [onDrop] gives the node it creates. *)
Definition dropLabel (event : DragEvent) : string :=
  match reactflow_data event with
  | Json (Some l) => l
  | _ => JS.toUpperCase (JS.charAt (reactflow_type event) 0)
         ++ JS.slice (reactflow_type event) 1
  end.

(** A label as the node editor leaves it: not empty, no white space at
    either end. *)
Definition clean (s : string) : bool :=
  JS.truthy s && (JS.trim s =? s).

(** Every drop of the session that creates a node gives it a clean
    label. *)
Fixpoint cleanDrops (ops : list Op) : bool :=
  match ops with
  | [] => true
  | Drop event :: rest =>
      (negb (JS.truthy (reactflow_type event)) || clean (dropLabel event))
      && cleanDrops rest
  | _ :: rest => cleanDrops rest
  end.

(** The drops of a session that carry a type tag. *)
Fixpoint drops (ops : list Op) : nat :=
  match ops with
  | [] => 0
  | Drop event :: rest =>
      (if JS.truthy (reactflow_type event) then 1 else 0) + drops rest
  | _ :: rest => drops rest
  end.

(** [i] was handed out by the counter before [j]. *)
Definition createdBefore (i j : string) : Prop :=
  exists a b : N,
    (a < b)%N /\ i = "node_" ++ JS.ofN a /\ j = "node_" ++ JS.ofN b.

(** The dependency kind [onConnect] gives an edge of a type. *)
Definition kindOfType (type : string) : option DependencyType :=
  if type =? "dependency" then Some include else None.

(** The local state of a label editor, and the keys it tells apart. *)
Module LabelEditor.
Record t := mk {
  isEditing : bool;
  editValue : string
}.
End LabelEditor.

Inductive Key := Enter | Escape | OtherKey.

(** What can happen to the label editor of a node. *)
Inductive LabelEvent :=
| DoubleClick
| Change (text : string)
| KeyDown (key : Key)
| Blur.

(** [EditableLabel], for node [nodeId] with label [value]: the input box
    exists, and takes changes, keys and blur, only while editing; the
    label takes a double click only while not editing. *)
Definition EditableLabel (nodeId value : string) (event : LabelEvent)
           (s : LabelEditor.t * Editor) : LabelEditor.t * Editor :=
  let '(ui, st) := s in
  let handleSave :=
    (LabelEditor.mk false (LabelEditor.editValue ui),
     EditableLabel_handleSave nodeId value (LabelEditor.editValue ui) st) in
  match event with
  | DoubleClick =>
      if LabelEditor.isEditing ui then s
      else (LabelEditor.mk true value, st)
  | Change text =>
      if LabelEditor.isEditing ui then (LabelEditor.mk true text, st)
      else s
  | KeyDown key =>
      if LabelEditor.isEditing ui then
        match key with
        | Enter => handleSave
        | Escape => (LabelEditor.mk false value, st)
        | OtherKey => s
        end
      else s
  | Blur => if LabelEditor.isEditing ui then handleSave else s
  end.

(** A run of events on the label editor of node [nodeId]: each event
    meets the label the last render handed down; without the node there
    is no editor. *)
Fixpoint editLabel (nodeId : string) (events : list LabelEvent)
         (s : LabelEditor.t * Editor) : LabelEditor.t * Editor :=
  match events with
  | [] => s
  | event :: rest =>
      match findNode (nodes (snd s)) nodeId with
      | Some n =>
          editLabel nodeId rest
            (EditableLabel nodeId (NodeData.label (Node.data n)) event s)
      | None => s
      end
  end.

(* ====================================================================== *)
(** ** The Clerk webhook and the tables behind it *)
(* ====================================================================== *)

(** The route [/api/webhooks/clerk] keeps the [users] table in step with
    the identity provider.  The tables are those of the migration; the
    three Prisma calls of the handler act on them as the constraints of
    the migration prescribe (primary keys, the unique indexes on
    [clerkId] and [email], the foreign keys with [ON DELETE CASCADE]). *)
Module Webhook.

Inductive Exn :=
| SyntaxError          (* [request.json()] on a body that is not JSON *)
| TypeError            (* a property read on [undefined] *)
| UniqueConstraint     (* a primary key or unique index is violated *)
| RecordNotFound.      (* [update] or [delete] finds no row *)

Inductive Result (A : Type) : Type :=
| Ok (a : A)
| Thrown (e : Exn).
Arguments Ok {A} a.
Arguments Thrown {A} e.

Definition bind {A B} (r : Result A) (k : A -> Result B) : Result B :=
  match r with
  | Ok a => k a
  | Thrown e => Thrown e
  end.

Module EmailAddress.
Record t := mk { id : string; email_address : string }.
End EmailAddress.

Module UserData.
(** [data] of a [ClerkWebhookEvent].  The body is whatever the sender
    put in it: [email_addresses] can be missing altogether. *)
Record t := mk {
  id : string;
  email_addresses : option (list EmailAddress.t);
  primary_email_address_id : option string;
  first_name : option string;
  last_name : option string;
  image_url : option string
}.
End UserData.

(** The request body, by what [request.json()] makes of it: it throws, or
    it gives a payload with its [type] and, when there is one, its
    [data]. *)
Inductive Body :=
| NotJson
| Payload (type : string) (data : option UserData.t).

Module User.
Record t := mk {
  id : string;
  clerkId : string;
  email : string;
  fullName : option string;
  avatarUrl : option string;
  createdAt : Z;
  updatedAt : Z
}.
End User.

Module Diagram.
Record t := mk {
  id : string;
  title : string;
  userId : string;
  content : string;
  thumbnail : option string;
  type : string;
  createdAt : Z;
  updatedAt : Z
}.
End Diagram.

Module Message.
Record t := mk {
  id : string;
  diagramId : string;
  role : string;
  content : string;
  status : string;
  createdAt : Z
}.
End Message.

Record DB := {
  users : list User.t;
  diagrams : list Diagram.t;
  messages : list Message.t
}.

(** What a request meets besides the tables: the id Prisma makes up for
    a new row, and the clock. *)
Record Env := { newId : string; clock : Z }.

Definition falsy (o : option string) : bool :=
  match o with
  | Some s => negb (JS.truthy s)
  | None => true
  end.

(** [parts.filter(Boolean)] on strings that may be [null]. *)
Fixpoint filterBoolean (parts : list (option string)) : list string :=
  match parts with
  | [] => []
  | Some s :: rest =>
      if JS.truthy s then s :: filterBoolean rest else filterBoolean rest
  | None :: rest => filterBoolean rest
  end.

(** [parts.join(sep)] *)
Fixpoint join (sep : string) (parts : list string) : string :=
  match parts with
  | [] => ""
  | [s] => s
  | s :: rest => s ++ sep ++ join sep rest
  end.

(** [[first_name, last_name].filter(Boolean).join(' ') || null] *)
Definition fullName (data : UserData.t) : option string :=
  let joined :=
    join " " (filterBoolean [UserData.first_name data;
                             UserData.last_name data]) in
  if JS.truthy joined then Some joined else None.

(** [data.email_addresses.find(email => email.id ===
    data.primary_email_address_id)?.email_address] *)
Definition primaryEmail (data : UserData.t) : Result (option string) :=
  match UserData.email_addresses data with
  | None => Thrown TypeError
  | Some addresses =>
      Ok (option_map EmailAddress.email_address
            (find (fun email =>
                     match UserData.primary_email_address_id data with
                     | Some p => EmailAddress.id email =? p
                     | None => false
                     end)
                  addresses))
  end.

(** [prisma.user.create({ data })] *)
Definition user_create (env : Env) (clerkId email : string)
           (fullName avatarUrl : option string) (db : DB) : Result DB :=
  if existsb (fun u => User.id u =? newId env) (users db)
     || existsb (fun u => User.clerkId u =? clerkId) (users db)
     || existsb (fun u => User.email u =? email) (users db)
  then Thrown UniqueConstraint
  else Ok {| users :=
               users db ++
               [ User.mk (newId env) clerkId email fullName avatarUrl
                         (clock env) (clock env) ];
             diagrams := diagrams db;
             messages := messages db |}.

(** [prisma.user.update({ where: { clerkId }, data })]; an [email] of
    [undefined] leaves the column alone. *)
Definition user_update (env : Env) (clerkId : string) (email : option string)
           (fullName avatarUrl : option string) (db : DB) : Result DB :=
  match find (fun u => User.clerkId u =? clerkId) (users db) with
  | None => Thrown RecordNotFound
  | Some _ =>
      let taken :=
        match email with
        | Some e =>
            existsb (fun v => (User.email v =? e)
                              && negb (User.clerkId v =? clerkId))
                    (users db)
        | None => false
        end in
      if taken then Thrown UniqueConstraint
      else
        Ok {| users :=
                map (fun v =>
                       if User.clerkId v =? clerkId
                       then User.mk (User.id v) (User.clerkId v)
                                    (match email with
                                     | Some e => e
                                     | None => User.email v
                                     end)
                                    fullName avatarUrl
                                    (User.createdAt v) (clock env)
                       else v)
                    (users db);
              diagrams := diagrams db;
              messages := messages db |}
  end.

(** [prisma.user.delete({ where: { clerkId } })]: the row goes, and with
    it the user's diagrams and the messages of those diagrams. *)
Definition user_delete (clerkId : string) (db : DB) : Result DB :=
  match find (fun u => User.clerkId u =? clerkId) (users db) with
  | None => Thrown RecordNotFound
  | Some u =>
      let gone (d : Diagram.t) := Diagram.userId d =? User.id u in
      Ok {| users :=
              filter (fun v => negb (User.clerkId v =? clerkId)) (users db);
            diagrams := filter (fun d => negb (gone d)) (diagrams db);
            messages :=
              filter (fun m =>
                        negb (existsb
                                (fun d => gone d
                                          && (Diagram.id d
                                              =? Message.diagramId m))
                                (diagrams db)))
                     (messages db) |}
  end.

Inductive ResponseBody :=
| success
| error (message : string).

Record Response := { status : nat; body : ResponseBody }.

(** What the [try] block does to the tables. *)
Definition handle (env : Env) (request : Body) (db : DB) : Result DB :=
  match request with
  | NotJson => Thrown SyntaxError
  | Payload _ None => Thrown TypeError
  | Payload type (Some data) =>
      bind (primaryEmail data) (fun primaryEmail =>
      let fullName := fullName data in
      if type =? "user.created" then
        user_create env (UserData.id data)
                    (match primaryEmail with
                     | Some e => e
                     | None => ""
                     end)
                    fullName (UserData.image_url data) db
      else if type =? "user.updated" then
        user_update env (UserData.id data)
                    (match primaryEmail with
                     | Some e => if JS.truthy e then Some e else None
                     | None => None
                     end)
                    fullName (UserData.image_url data) db
      else if type =? "user.deleted" then
        user_delete (UserData.id data) db
      else Ok db)
  end.

(** The two answers of the handler. *)
Definition succeeded : Response := {| status := 200; body := success |}.

Definition failed : Response :=
  {| status := 500; body := error "Webhook processing failed" |}.

(** The [POST] handler: the answer, and the tables after it. *)
Definition POST (env : Env) (request : Body) (db : DB) : Response * DB :=
  match handle env request db with
  | Ok db' => (succeeded, db')
  | Thrown _ => (failed, db)
  end.

(** The constraints of the migration: primary keys, unique indexes,
    foreign keys. *)
Definition constraints (db : DB) : Prop :=
  NoDup (map User.id (users db))
  /\ NoDup (map User.clerkId (users db))
  /\ NoDup (map User.email (users db))
  /\ NoDup (map Diagram.id (diagrams db))
  /\ NoDup (map Message.id (messages db))
  /\ (forall d, In d (diagrams db) ->
                In (Diagram.userId d) (map User.id (users db)))
  /\ (forall m, In m (messages db) ->
                In (Message.diagramId m) (map Diagram.id (diagrams db))).

End Webhook.

Module WebhookSample.

Definition env : Webhook.Env :=
  {| Webhook.newId := "row_1"; Webhook.clock := 1768219200000 |}.

Definition later : Webhook.Env :=
  {| Webhook.newId := "row_2"; Webhook.clock := 1768219260000 |}.

Definition noTables : Webhook.DB :=
  {| Webhook.users := []; Webhook.diagrams := []; Webhook.messages := [] |}.

(** A user with a primary address. *)
Definition ada : Webhook.UserData.t :=
  Webhook.UserData.mk
    "user_1" (Some [Webhook.EmailAddress.mk "idn_1" "ada@example.org"])
    (Some "idn_1") (Some "Ada") (Some "Lovelace") None.

(** The same user as a deletion names her: the id and nothing else. *)
Definition adaGone : Webhook.UserData.t :=
  Webhook.UserData.mk "user_1" None None None None None.

(** The same user, renamed, without a primary address. *)
Definition adaRenamed : Webhook.UserData.t :=
  Webhook.UserData.mk "user_1" (Some []) None (Some "Ada") None None.

(** Two users without any address. *)
Definition bob : Webhook.UserData.t :=
  Webhook.UserData.mk "user_2" (Some []) None (Some "Bob") None None.

Definition eve : Webhook.UserData.t :=
  Webhook.UserData.mk "user_3" (Some []) None (Some "Eve") None None.

Definition adaRow : Webhook.User.t :=
  Webhook.User.mk "row_1" "user_1" "ada@example.org" (Some "Ada Lovelace")
                  None 1768219200000 1768219200000.

(** Ada in the table, with a diagram and a message of hers. *)
Definition withAda : Webhook.DB :=
  {| Webhook.users := [ adaRow ];
     Webhook.diagrams :=
       [ Webhook.Diagram.mk "dia_1" "Untitled Diagram" "row_1" "{}" None
                            "USE_CASE" 1768219200000 1768219200000 ];
     Webhook.messages :=
       [ Webhook.Message.mk "msg_1" "dia_1" "USER" "a checkout"
                            "COMPLETED" 1768219200000 ] |}.

Definition onlyAda : Webhook.DB :=
  {| Webhook.users := [ adaRow ]; Webhook.diagrams := [];
     Webhook.messages := [] |}.

End WebhookSample.

(* ====================================================================== *)
(** ** Basic facts: lists, strings, printed numbers *)
(* ====================================================================== *)

Lemma mem_In (s : string) (l : list string) : mem s l = true <-> In s l.
Proof.
  unfold mem. rewrite existsb_exists. split.
  - intros [t [Hin Heq]]. apply String.eqb_eq in Heq. now subst.
  - intros Hin. exists s. split; [assumption | apply String.eqb_refl].
Qed.

Lemma mem_false (s : string) (l : list string) :
  mem s l = false <-> ~ In s l.
Proof.
  rewrite <- mem_In. destruct (mem s l); split; congruence.
Qed.

Lemma unique_NoDup (l : list string) : unique l = true <-> NoDup l.
Proof.
  induction l as [|a r IH]; simpl.
  - split; [constructor | reflexivity].
  - rewrite andb_true_iff, negb_true_iff, mem_false, IH. split.
    + intros [Hn Hd]. now constructor.
    + intros H. inversion H; subst. now split.
Qed.

Lemma find_app {A} (f : A -> bool) (l l' : list A) :
  find f (l ++ l') =
  match find f l with Some a => Some a | None => find f l' end.
Proof.
  induction l as [|a r IH]; simpl; [reflexivity|].
  destruct (f a); [reflexivity | exact IH].
Qed.

Lemma app_one_neq {A} (l : list A) (a : A) : (l ++ [a])%list <> l.
Proof.
  intros H. apply (f_equal (@List.length A)) in H.
  rewrite length_app in H. simpl in H. lia.
Qed.

Lemma ofN_inj (n m : N) : JS.ofN n = JS.ofN m -> n = m.
Proof.
  unfold JS.ofN. intros H.
  apply (f_equal NilEmpty.uint_of_string) in H.
  rewrite !NilEmpty.usu in H. injection H as H.
  apply (f_equal N.of_uint) in H.
  now rewrite !DecimalN.Unsigned.of_to in H.
Qed.

Lemma ofZ_inj (a b : Z) : JS.ofZ a = JS.ofZ b -> a = b.
Proof.
  unfold JS.ofZ. intros H.
  apply (f_equal NilEmpty.int_of_string) in H.
  rewrite !NilEmpty.isi in H. injection H as H.
  apply (f_equal Z.of_int) in H.
  now rewrite !DecimalZ.of_to in H.
Qed.

Lemma edgeId_inj (a b : Z) : edgeId a = edgeId b -> a = b.
Proof.
  unfold edgeId. intros H. simpl in H. injection H as H. now apply ofZ_inj.
Qed.

Lemma nodeId_inj (n m : N) :
  "node_" ++ JS.ofN n = "node_" ++ JS.ofN m -> n = m.
Proof.
  intros H. simpl in H. injection H as H. now apply ofN_inj.
Qed.

Lemma NoDup_snoc {A} (l : list A) (a : A) :
  NoDup l -> ~ In a l -> NoDup (l ++ [a]).
Proof.
  induction l as [|b r IH]; simpl; intros Hd Hn.
  - constructor; [tauto | constructor].
  - inversion Hd; subst. constructor.
    + rewrite in_app_iff. simpl. intros [H | [H | []]]; [tauto|].
      apply Hn. now left.
    + apply IH; tauto.
Qed.

Lemma map_filter_incl {A B} (g : A -> B) (f : A -> bool) (l : list A) b :
  In b (map g (filter f l)) -> In b (map g l).
Proof.
  rewrite !in_map_iff. intros [a [Ha Hin]]. apply filter_In in Hin.
  exists a. tauto.
Qed.

Lemma NoDup_map_filter {A B} (g : A -> B) (f : A -> bool) (l : list A) :
  NoDup (map g l) -> NoDup (map g (filter f l)).
Proof.
  induction l as [|a r IH]; simpl; intros Hd; [constructor|].
  inversion Hd; subst. destruct (f a); simpl.
  - constructor; [|now apply IH].
    intros Hin. now apply map_filter_incl in Hin.
  - now apply IH.
Qed.

Lemma Forall_map_filter {A B} (P : B -> Prop) (g : A -> B) (f : A -> bool)
      (l : list A) :
  Forall P (map g l) -> Forall P (map g (filter f l)).
Proof.
  rewrite !Forall_forall. intros H b Hin. apply H.
  now apply map_filter_incl in Hin.
Qed.

Lemma map_map_keep {A B} (g : A -> B) (h : A -> A) (l : list A) :
  (forall a, g (h a) = g a) -> map g (map h l) = map g l.
Proof.
  intros H. rewrite map_map. apply map_ext. exact H.
Qed.

(* ====================================================================== *)
(** ** What each handler does to the two collections *)
(* ====================================================================== *)

Lemma onDrop_no_type (st : Editor) (event : DragEvent) :
  reactflow_type event = "" -> onDrop st event = JS.Normal st.
Proof.
  intros H. unfold onDrop. now rewrite H.
Qed.

Lemma onDrop_node (st : Editor) (event : DragEvent) :
  reactflow_type event <> "" ->
  exists data : NodeData.t,
    onDrop st event =
    JS.Normal
      {| nodes :=
           nodes st ++
           [ Node.mk ("node_" ++ JS.ofN (nodeIdCounter st))
                     (reactflow_type event) (flowPosition event) data false ];
         edges := edges st;
         selectedEdgeType := selectedEdgeType st;
         nodeIdCounter := N.succ (nodeIdCounter st) |}
    /\ data = match reactflow_data event with
              | Json (Some l) => NodeData.mk l
              | _ => NodeData.mk
                       (JS.toUpperCase (JS.charAt (reactflow_type event) 0)
                        ++ JS.slice (reactflow_type event) 1)
              end.
Proof.
  intros Hty. unfold onDrop.
  destruct (reactflow_type event) as [|c r] eqn:E; [congruence|].
  cbn [JS.truthy String.eqb negb].
  destruct (reactflow_data event) as [|[l|]]; cbn;
    eexists; split; reflexivity.
Qed.

Lemma onConnect_edges (st : Editor) (params : Connection) (now : Z) :
  edges (onConnect st params now) = edges st
  \/ edges (onConnect st params now)
     = (edges st ++ [newEdge (selectedEdgeType st) params now])%list.
Proof.
  unfold onConnect, setEdges, ReactFlow.addEdge. simpl.
  destruct (negb (JS.truthy (source params))
            || negb (JS.truthy (target params))); [now left|].
  destruct (ReactFlow.connectionExists _ _); [now left | now right].
Qed.

Lemma step_total (st : Editor) (op : Op) :
  exists st', step st op = JS.Normal st'.
Proof.
  destruct op; simpl; try (eexists; reflexivity).
  - destruct (string_dec (reactflow_type event) "") as [E|E].
    + exists st. now apply onDrop_no_type.
    + destruct (onDrop_node st event E) as [d [H _]]. eexists. exact H.
  - destruct (nth_error (nodes st) i); eexists; reflexivity.
  - destruct (nth_error (edges st) i) as [e|]; [|eexists; reflexivity].
    destruct (edgeLabelEditor e); eexists; reflexivity.
Qed.

Lemma run_total (ops : list Op) (st : Editor) :
  exists st', run st ops = JS.Normal st'.
Proof.
  revert st. induction ops as [|op rest IH]; intros st; simpl.
  - now exists st.
  - destruct (step_total st op) as [st1 H]. rewrite H. simpl. apply IH.
Qed.

(* ====================================================================== *)
(** ** Node ids along a session *)
(* ====================================================================== *)

Lemma ids_of_keys (nds : list Node.t) :
  map Node.id nds = map fst (map nodeKey nds).
Proof.
  rewrite map_map. reflexivity.
Qed.

Lemma selectNode_keys (id : string) (b : bool) (nds : list Node.t) :
  map nodeKey (ReactFlow.selectNode id b nds) = map nodeKey nds.
Proof.
  unfold ReactFlow.selectNode. apply map_map_keep.
  intros n. now destruct (Node.id n =? id).
Qed.

Lemma relabel_keys (nodeId l : string) (nds : list Node.t) :
  map nodeKey
      (map (fun node => if Node.id node =? nodeId
                        then Node.with_label node l else node) nds)
  = map nodeKey nds.
Proof.
  apply map_map_keep. intros n. now destruct (Node.id n =? nodeId).
Qed.

Lemma handleSave_node_keys (nodeId value editValue : string) (st : Editor) :
  map nodeKey (nodes (EditableLabel_handleSave nodeId value editValue st))
  = map nodeKey (nodes st)
  /\ nodeIdCounter (EditableLabel_handleSave nodeId value editValue st)
     = nodeIdCounter st
  /\ edges (EditableLabel_handleSave nodeId value editValue st) = edges st.
Proof.
  unfold EditableLabel_handleSave.
  destruct (JS.truthy (JS.trim editValue)
            && negb (JS.trim editValue =? value)); simpl.
  - now rewrite relabel_keys.
  - tauto.
Qed.

Lemma handleSave_edge_nodes (edgeId value editValue : string) (st : Editor) :
  nodes (EditableEdgeLabel_handleSave edgeId value editValue st) = nodes st
  /\ nodeIdCounter (EditableEdgeLabel_handleSave edgeId value editValue st)
     = nodeIdCounter st.
Proof.
  unfold EditableEdgeLabel_handleSave.
  destruct (negb (JS.trim editValue =? value)); simpl; tauto.
Qed.

Lemma issued_fresh (st : Editor) :
  issued st ->
  ~ In ("node_" ++ JS.ofN (nodeIdCounter st)) (map Node.id (nodes st)).
Proof.
  unfold issued. rewrite Forall_forall. intros H Hin.
  destruct (H _ Hin) as [k [Hlt Heq]]. apply nodeId_inj in Heq. lia.
Qed.

Lemma issued_succ (c : N) (ids : list string) :
  Forall (issuedId c) ids ->
  Forall (issuedId (N.succ c)) (ids ++ ["node_" ++ JS.ofN c]).
Proof.
  intros H. apply Forall_app. split.
  - eapply Forall_impl; [|exact H].
    intros i [k [Hlt Heq]]. exists k. split; [lia | exact Heq].
  - constructor; [|constructor]. exists c. split; [lia | reflexivity].
Qed.

(** The shape of the node collection after one step: a node with the
    counter's id at the end; or the same ids and types in the same
    places; or, on deletion, the nodes that were not selected. *)
Lemma step_nodes (st st' : Editor) (op : Op) :
  step st op = JS.Normal st' ->
  (exists n,
      nodes st' = (nodes st ++ [n])%list
      /\ Node.id n = "node_" ++ JS.ofN (nodeIdCounter st)
      /\ nodeIdCounter st' = N.succ (nodeIdCounter st))
  \/ (nodeIdCounter st' = nodeIdCounter st
      /\ (map nodeKey (nodes st') = map nodeKey (nodes st)
          \/ op = DeleteSelected
             /\ nodes st'
                = filter (fun n => negb (Node.selected n)) (nodes st))).
Proof.
  destruct op; simpl; intros H.
  - destruct (string_dec (reactflow_type event) "") as [E|E].
    + rewrite (onDrop_no_type st event E) in H. injection H as <-.
      right. tauto.
    + destruct (onDrop_node st event E) as [d [Hd _]]. rewrite Hd in H.
      injection H as <-. left. eexists. simpl. repeat split.
  - injection H as <-. right. simpl. tauto.
  - injection H as <-. right. simpl. tauto.
  - injection H as <-. right. simpl. rewrite selectNode_keys. tauto.
  - injection H as <-. right. simpl. tauto.
  - injection H as <-. right. simpl. tauto.
  - right. destruct (nth_error (nodes st) i) as [n|];
      injection H as <-; [|tauto].
    destruct (handleSave_node_keys (Node.id n) (NodeData.label (Node.data n))
                                   editValue st) as [H1 [H2 _]].
    tauto.
  - right. destruct (nth_error (edges st) i) as [e|];
      [|injection H as <-; tauto].
    destruct (edgeLabelEditor e) as [value|]; injection H as <-; [|tauto].
    destruct (handleSave_edge_nodes (Edge.id e) value editValue st)
      as [H1 H2].
    rewrite H1. tauto.
Qed.

Lemma step_node_ids (st st' : Editor) (op : Op) :
  step st op = JS.Normal st' ->
  NoDup (map Node.id (nodes st)) /\ issued st ->
  NoDup (map Node.id (nodes st')) /\ issued st'.
Proof.
  intros Hs [Hd Hi]. unfold issued in *.
  destruct (step_nodes st st' op Hs)
    as [[n [Hn [Hid Hc]]] | [Hc [Hsame | [_ Hfil]]]].
  - rewrite Hn, Hc, map_app. simpl. rewrite Hid. split.
    + apply NoDup_snoc; [exact Hd | now apply issued_fresh].
    + now apply issued_succ.
  - rewrite Hc, (ids_of_keys (nodes st')), Hsame, <- ids_of_keys. tauto.
  - rewrite Hc, Hfil. split.
    + now apply NoDup_map_filter.
    + now apply Forall_map_filter.
Qed.

Lemma run_node_ids (ops : list Op) (st st' : Editor) :
  run st ops = JS.Normal st' ->
  NoDup (map Node.id (nodes st)) /\ issued st ->
  NoDup (map Node.id (nodes st')) /\ issued st'.
Proof.
  revert st. induction ops as [|op rest IH]; simpl; intros st Hr Hinv.
  - injection Hr as <-. exact Hinv.
  - destruct (step st op) as [st1|] eqn:Hs; simpl in Hr; [|discriminate].
    apply (IH st1 Hr). now apply (step_node_ids st st1 op).
Qed.

Lemma defaultEditor_node_ids :
  NoDup (map Node.id (nodes defaultEditor)) /\ issued defaultEditor.
Proof.
  split; [constructor | constructor].
Qed.

(* ====================================================================== *)
(** ** Edges along a session *)
(* ====================================================================== *)

Lemma edge_ids_of_keys (eds : list Edge.t) :
  map Edge.id eds = map (fun k => fst (fst k)) (map edgeKey eds).
Proof.
  rewrite map_map. reflexivity.
Qed.

Lemma selectEdge_keys (id : string) (b : bool) (eds : list Edge.t) :
  map edgeKey (ReactFlow.selectEdge id b eds) = map edgeKey eds.
Proof.
  unfold ReactFlow.selectEdge. apply map_map_keep.
  intros e. now destruct (Edge.id e =? id).
Qed.

Lemma handleSave_edge_keys (edgeId value editValue : string) (st : Editor) :
  map edgeKey (edges (EditableEdgeLabel_handleSave edgeId value editValue st))
  = map edgeKey (edges st).
Proof.
  unfold EditableEdgeLabel_handleSave.
  destruct (negb (JS.trim editValue =? value)); simpl; [|reflexivity].
  apply map_map_keep. intros e. now destruct (Edge.id e =? edgeId).
Qed.

Lemma handleOf_key (nds : list Node.t) (i : string) (h : option string) :
  handleOf nds i h = keyHandleOf (map nodeKey nds) i h.
Proof.
  unfold handleOf, keyHandleOf, findNode.
  induction nds as [|n r IH]; simpl; [reflexivity|].
  destruct (Node.id n =? i); [reflexivity | exact IH].
Qed.

Lemma handlesValid_key (nds : list Node.t) (e : Edge.t) :
  handlesValid nds e = keyHandlesValid (map nodeKey nds) (edgeKey e).
Proof.
  unfold handlesValid, keyHandlesValid. now rewrite !handleOf_key.
Qed.

Lemma forallb_map {A B} (f : B -> bool) (g : A -> B) (l : list A) :
  forallb f (map g l) = forallb (fun a => f (g a)) l.
Proof.
  induction l as [|a r IH]; simpl; [reflexivity | now rewrite IH].
Qed.

Lemma forallb_handlesValid_key (nds : list Node.t) (eds : list Edge.t) :
  forallb (handlesValid nds) eds
  = forallb (keyHandlesValid (map nodeKey nds)) (map edgeKey eds).
Proof.
  rewrite forallb_map. induction eds as [|e r IH]; simpl; [reflexivity|].
  now rewrite handlesValid_key, IH.
Qed.

Lemma handleOf_app (nds l : list Node.t) (i : string) (h : option string) :
  handleOf nds i h = true -> handleOf (nds ++ l) i h = true.
Proof.
  unfold handleOf, findNode. rewrite find_app.
  destruct (find (fun n => Node.id n =? i) nds); [tauto | discriminate].
Qed.

Lemma handleOf_In (nds : list Node.t) (i : string) (h : option string) :
  handleOf nds i h = true -> In i (map Node.id nds).
Proof.
  unfold handleOf, findNode.
  destruct (find (fun n => Node.id n =? i) nds) as [n|] eqn:E;
    [|discriminate].
  intros _. apply find_some in E. destruct E as [Hin Heq].
  apply String.eqb_eq in Heq. subst i. now apply in_map.
Qed.

Lemma handleOf_unselected (nds : list Node.t) (i : string)
      (h : option string) :
  nodeSelected nds i = false ->
  handleOf (filter (fun n => negb (Node.selected n)) nds) i h
  = handleOf nds i h.
Proof.
  unfold handleOf, findNode, nodeSelected.
  induction nds as [|n r IH]; simpl; [reflexivity|].
  intros H. apply orb_false_iff in H. destruct H as [Hn Hr].
  destruct (Node.id n =? i) eqn:E; simpl in Hn.
  - rewrite Hn. simpl. now rewrite E.
  - destruct (Node.selected n); simpl; [|rewrite E]; now apply IH.
Qed.

Lemma wf_transport (st st' : Editor) :
  map nodeKey (nodes st') = map nodeKey (nodes st) ->
  map edgeKey (edges st') = map edgeKey (edges st) ->
  wellFormed st -> wellFormed st'.
Proof.
  unfold wellFormed. intros Hn He [Hd Hv].
  rewrite forallb_handlesValid_key in *.
  rewrite (edge_ids_of_keys (edges st')), He, Hn, <- edge_ids_of_keys.
  tauto.
Qed.

Lemma wf_drop (st st' : Editor) (n : Node.t) :
  nodes st' = (nodes st ++ [n])%list ->
  edges st' = edges st ->
  wellFormed st -> wellFormed st'.
Proof.
  unfold wellFormed. intros Hn He [Hd Hv]. rewrite Hn, He.
  split; [exact Hd|].
  rewrite forallb_forall in *. intros e Hin. specialize (Hv e Hin).
  unfold handlesValid in *. apply andb_true_iff in Hv. destruct Hv.
  apply andb_true_iff. split; now apply handleOf_app.
Qed.

Lemma wf_connect (st st' : Editor) (e : Edge.t) :
  nodes st' = nodes st ->
  edges st' = (edges st ++ [e])%list ->
  handlesValid (nodes st) e = true ->
  ~ In (Edge.id e) (map Edge.id (edges st)) ->
  wellFormed st -> wellFormed st'.
Proof.
  unfold wellFormed. intros Hn He Hv Hfresh [Hd Hall].
  rewrite Hn, He, map_app, forallb_app. simpl. split.
  - now apply NoDup_snoc.
  - now rewrite Hall, Hv.
Qed.

Lemma wf_delete (st : Editor) :
  selectionClosed st = true ->
  wellFormed st -> wellFormed (handleDeleteSelected st).
Proof.
  unfold wellFormed, selectionClosed, handleDeleteSelected. simpl.
  intros Hc [Hd Hall]. split; [now apply NoDup_map_filter|].
  rewrite forallb_forall in *. intros e Hin.
  apply filter_In in Hin. destruct Hin as [Hin Hsel].
  specialize (Hc e Hin). specialize (Hall e Hin).
  apply negb_true_iff in Hsel. rewrite Hsel in Hc. simpl in Hc.
  apply andb_true_iff in Hc. destruct Hc as [Hs Ht].
  apply negb_true_iff in Hs, Ht.
  unfold handlesValid in *. now rewrite !handleOf_unselected.
Qed.

Lemma step_wellFormed (st st' : Editor) (op : Op) :
  step st op = JS.Normal st' ->
  requestOk st op = true ->
  wellFormed st -> wellFormed st'.
Proof.
  destruct op; simpl; intros H Hok Hwf.
  - destruct (string_dec (reactflow_type event) "") as [E|E].
    + rewrite (onDrop_no_type st event E) in H. now injection H as <-.
    + destruct (onDrop_node st event E) as [d [Hd _]]. rewrite Hd in H.
      injection H as <-.
      eapply (wf_drop st); [reflexivity | reflexivity | exact Hwf].
  - injection H as <-. unfold connectOk in Hok.
    apply andb_true_iff in Hok. destruct Hok as [Hh Hfresh].
    apply negb_true_iff, mem_false in Hfresh.
    destruct (onConnect_edges st params now) as [He | He].
    + apply (wf_transport st); [reflexivity | now rewrite He | exact Hwf].
    + apply (wf_connect st _ (newEdge (selectedEdgeType st) params now));
        [reflexivity | exact He | exact Hh | exact Hfresh | exact Hwf].
  - injection H as <-. now apply (wf_transport st).
  - injection H as <-. apply (wf_transport st); [|reflexivity|exact Hwf].
    simpl. apply selectNode_keys.
  - injection H as <-. apply (wf_transport st); [reflexivity| |exact Hwf].
    simpl. apply selectEdge_keys.
  - injection H as <-. now apply wf_delete.
  - destruct (nth_error (nodes st) i) as [n|]; injection H as <-;
      [|exact Hwf].
    destruct (handleSave_node_keys (Node.id n) (NodeData.label (Node.data n))
                                   editValue st) as [H1 [_ H3]].
    apply (wf_transport st); [exact H1 | now rewrite H3 | exact Hwf].
  - destruct (nth_error (edges st) i) as [e|];
      [|now injection H as <-].
    destruct (edgeLabelEditor e) as [value|]; injection H as <-;
      [|exact Hwf].
    destruct (handleSave_edge_nodes (Edge.id e) value editValue st)
      as [H1 _].
    apply (wf_transport st);
      [now rewrite H1 | apply handleSave_edge_keys | exact Hwf].
Qed.

Lemma run_wellFormed (ops : list Op) (st st' : Editor) :
  run st ops = JS.Normal st' ->
  requestsOk st ops = true ->
  wellFormed st -> wellFormed st'.
Proof.
  revert st. induction ops as [|op rest IH]; simpl; intros st Hr Hok Hwf.
  - now injection Hr as <-.
  - apply andb_true_iff in Hok. destruct Hok as [Hop Hrest].
    destruct (step st op) as [st1|] eqn:Hs; simpl in Hr; [|discriminate].
    apply (IH st1 Hr Hrest). now apply (step_wellFormed st st1 op).
Qed.

Lemma validate_iff (st : Editor) :
  validate st = true
  <-> NoDup (map Node.id (nodes st)) /\ wellFormed st.
Proof.
  unfold validate, wellFormed.
  rewrite !andb_true_iff, !unique_NoDup. split.
  - tauto.
  - intros [Hn [He Hv]]. repeat split; try assumption.
    rewrite forallb_forall in *. intros e Hin. specialize (Hv e Hin).
    unfold handlesValid in Hv. apply andb_true_iff in Hv.
    destruct Hv as [Hs Ht]. unfold endsExist.
    apply andb_true_iff. split; apply mem_In; eapply handleOf_In; eassumption.
Qed.

(** The shape of the edge collection after one step: the same ids and
    ends in the same places; or one new edge at the end; or, on deletion,
    the edges that were not selected. *)
Lemma step_edges (st st' : Editor) (op : Op) :
  step st op = JS.Normal st' ->
  map edgeKey (edges st') = map edgeKey (edges st)
  \/ (exists params now,
         op = Connect params now
         /\ edges st'
            = (edges st ++ [newEdge (selectedEdgeType st) params now])%list)
  \/ (op = DeleteSelected
      /\ edges st' = filter (fun e => negb (Edge.selected e)) (edges st)).
Proof.
  destruct op; simpl; intros H.
  - left. destruct (string_dec (reactflow_type event) "") as [E|E].
    + rewrite (onDrop_no_type st event E) in H. now injection H as <-.
    + destruct (onDrop_node st event E) as [d [Hd _]]. rewrite Hd in H.
      now injection H as <-.
  - injection H as <-.
    destruct (onConnect_edges st params now) as [He | He].
    + left. now rewrite He.
    + right. left. now exists params, now.
  - injection H as <-. now left.
  - injection H as <-. now left.
  - injection H as <-. left. simpl. apply selectEdge_keys.
  - injection H as <-. right. right. now split.
  - left. destruct (nth_error (nodes st) i) as [n|];
      injection H as <-; [|reflexivity].
    destruct (handleSave_node_keys (Node.id n) (NodeData.label (Node.data n))
                                   editValue st) as [_ [_ H3]].
    now rewrite H3.
  - left. destruct (nth_error (edges st) i) as [e|];
      [|now injection H as <-].
    destruct (edgeLabelEditor e) as [value|]; injection H as <-;
      [|reflexivity].
    apply handleSave_edge_keys.
Qed.

Lemma stamps_cons (op : Op) (rest : list Op) :
  stamps (op :: rest) = (stamps [op] ++ stamps rest)%list.
Proof.
  destruct op; reflexivity.
Qed.

Lemma stampedId_more (used more : list Z) (id : string) :
  stampedId used id -> stampedId (used ++ more) id.
Proof.
  intros [t [Hin Heq]]. exists t. split; [|exact Heq].
  apply in_app_iff. now left.
Qed.

Lemma step_edge_ids (st st' : Editor) (op : Op) (used : list Z) :
  step st op = JS.Normal st' ->
  NoDup (used ++ stamps [op]) ->
  NoDup (map Edge.id (edges st)) /\ stamped used st ->
  NoDup (map Edge.id (edges st')) /\ stamped (used ++ stamps [op]) st'.
Proof.
  intros Hs Hu [Hd Hst]. unfold stamped in *.
  destruct (step_edges st st' op Hs)
    as [Hk | [[params [now [-> He]]] | [-> He]]].
  - rewrite (edge_ids_of_keys (edges st')), Hk, <- edge_ids_of_keys.
    split; [exact Hd|].
    eapply Forall_impl; [|exact Hst]. intros i. apply stampedId_more.
  - rewrite He, map_app. simpl in *. split.
    + apply NoDup_snoc; [exact Hd|]. intros Hin.
      rewrite Forall_forall in Hst.
      destruct (Hst _ Hin) as [t [Ht Heq]]. apply edgeId_inj in Heq.
      subst t. apply NoDup_remove_2 in Hu. apply Hu.
      rewrite app_nil_r. exact Ht.
    + apply Forall_app. split.
      * eapply Forall_impl; [|exact Hst]. intros i. apply stampedId_more.
      * constructor; [|constructor]. exists now. split; [|reflexivity].
        apply in_app_iff. right. now left.
  - rewrite He. split.
    + now apply NoDup_map_filter.
    + apply Forall_map_filter.
      eapply Forall_impl; [|exact Hst]. intros i. apply stampedId_more.
Qed.

Lemma run_edge_ids (ops : list Op) (st st' : Editor) (used : list Z) :
  run st ops = JS.Normal st' ->
  NoDup (used ++ stamps ops) ->
  NoDup (map Edge.id (edges st)) /\ stamped used st ->
  NoDup (map Edge.id (edges st')) /\ stamped (used ++ stamps ops) st'.
Proof.
  revert st used. induction ops as [|op rest IH]; intros st used Hr Hu Hinv.
  - simpl in *. injection Hr as <-. now rewrite app_nil_r.
  - simpl in Hr.
    destruct (step st op) as [st1|] eqn:Hs; simpl in Hr; [|discriminate].
    rewrite stamps_cons, app_assoc in *.
    apply (IH st1 _ Hr Hu).
    apply (step_edge_ids st st1 op used Hs); [|exact Hinv].
    now apply NoDup_app_remove_r in Hu.
Qed.

(* ====================================================================== *)
(** ** Handle sets *)
(* ====================================================================== *)

(** C5, as stated, fails for the actor: [ActorNode] renders no handle on
    its top or bottom side, so the actor is not four-sided. *)
Lemma actor_has_no_top_or_bottom_handle :
  exposes "actor" HandleType.source Position.Top = false
  /\ exposes "actor" HandleType.target Position.Bottom = false
  /\ ~ In "top-source" (handleIds "actor")
  /\ ~ fourSided "actor".
Proof.
  repeat split.
  - cbv. intuition discriminate.
  - intros H. specialize (H HandleType.source Position.Top). discriminate H.
Qed.

(** C5 (amended): the handle set of a node is a function of its type tag
    alone.  A use case exposes a source and a target handle on each of
    its four sides; an actor and a system boundary expose a source and a
    target handle on the left and on the right side, and no other. *)
Theorem handle_sets_by_type :
  fourSided "usecase"
  /\ leftRightOnly "actor"
  /\ leftRightOnly "system"
  /\ handleIds "actor"
     = ["right-source"; "right-target"; "left-source"; "left-target"]
  /\ handleIds "system"
     = ["left-source"; "left-target"; "right-source"; "right-target"].
Proof.
  repeat split; intros [] []; reflexivity.
Qed.

(* ====================================================================== *)
(** ** Connecting *)
(* ====================================================================== *)

(** C3, as stated, fails: a connection from ["centre-source"], which is no
    handle of the actor, puts an edge on the canvas. *)
Lemma onConnect_takes_a_missing_handle :
  ~ In "centre-source" (handleIds "actor")
  /\ edges Sample.twoNodes = []
  /\ edges (onConnect Sample.twoNodes Sample.fromMissingHandle Sample.noon)
     = [ newEdge "association" Sample.fromMissingHandle Sample.noon ].
Proof.
  repeat split. cbv. intuition discriminate.
Qed.

(** C3 (amended): [onConnect] consults no handle set.  It leaves the
    nodes alone, and the edge collection is unchanged exactly when the
    request lacks a source or a target node id or repeats a connection
    that exists (same two nodes, same two handles); in every other case
    the new edge is put at the end, whatever its handle ids. *)
Theorem onConnect_checks_no_handle (st : Editor) (params : Connection)
        (now : Z) :
  let e := newEdge (selectedEdgeType st) params now in
  let refused :=
    negb (JS.truthy (source params)) || negb (JS.truthy (target params))
    || ReactFlow.connectionExists e (edges st) in
  nodes (onConnect st params now) = nodes st
  /\ (refused = true /\ edges (onConnect st params now) = edges st
      \/ refused = false
         /\ edges (onConnect st params now) = (edges st ++ [e])%list
         /\ edges (onConnect st params now) <> edges st).
Proof.
  simpl. split; [reflexivity|].
  unfold onConnect, setEdges, ReactFlow.addEdge. simpl.
  destruct (negb (JS.truthy (source params))
            || negb (JS.truthy (target params))); simpl; [now left|].
  destruct (ReactFlow.connectionExists _ _); [now left|].
  right. repeat split. apply app_one_neq.
Qed.

(* ====================================================================== *)
(** ** Dropping *)
(* ====================================================================== *)

Lemma append_empty (s : string) : s ++ "" = s.
Proof.
  induction s as [|c r IH]; simpl; [reflexivity | now rewrite IH].
Qed.

Lemma capitalize_first (c : ascii) (r : string) :
  JS.toUpperCase (JS.charAt (String c r) 0) ++ JS.slice (String c r) 1
  = JS.toUpperCaseUnit c ++ r.
Proof.
  simpl. now rewrite append_empty.
Qed.

(** The capital of a code unit, case by case. *)
Lemma toUpperCaseUnit_cases (c : ascii) (r : string) :
  let k := nat_of_ascii c in
  ((97 <= k <= 122 \/ 224 <= k <= 254 /\ k <> 247)%nat ->
   JS.toUpperCaseUnit c ++ r = String (ascii_of_nat (k - 32)) r)
  /\ (k = 223%nat -> JS.toUpperCaseUnit c ++ r = String "S" (String "S" r))
  /\ ((k < 97 \/ 122 < k < 181 \/ 181 < k < 223 \/ k = 247)%nat ->
      JS.toUpperCaseUnit c ++ r = String c r).
Proof.
  unfold JS.toUpperCaseUnit. cbv zeta.
  destruct (Nat.leb_spec0 97 (nat_of_ascii c)),
           (Nat.leb_spec0 (nat_of_ascii c) 122),
           (Nat.leb_spec0 224 (nat_of_ascii c)),
           (Nat.leb_spec0 (nat_of_ascii c) 254),
           (Nat.eqb_spec (nat_of_ascii c) 247),
           (Nat.eqb_spec (nat_of_ascii c) 223);
    simpl; repeat split; intros; try lia; reflexivity.
Qed.

(** C10: [onDrop] never throws.  A drop with an empty type tag leaves the
    editor as it was; a drop with a type tag whose data is not JSON still
    puts a node on the canvas, labelled with the type tag, first letter
    in upper case: a letter a to z or a Latin-1 letter with a capital
    below 256 is replaced by the code unit 32 below it, the sharp s by
    two capital S, and any other first code unit stays.  (The micro sign
    and the y with diaeresis, whose capitals lie outside the alphabet of
    the model, are not covered.) *)
Theorem onDrop_never_throws (st : Editor) (event : DragEvent) :
  (exists st', onDrop st event = JS.Normal st')
  /\ (reactflow_type event = "" -> onDrop st event = JS.Normal st)
  /\ (forall c r,
         reactflow_type event = String c r ->
         reactflow_data event = NotJson ->
         exists n st',
           onDrop st event = JS.Normal st'
           /\ nodes st' = (nodes st ++ [n])%list
           /\ edges st' = edges st
           /\ let k := nat_of_ascii c in
              let label := NodeData.label (Node.data n) in
              ((97 <= k <= 122 \/ 224 <= k <= 254 /\ k <> 247)%nat ->
               label = String (ascii_of_nat (k - 32)) r)
              /\ (k = 223%nat -> label = String "S" (String "S" r))
              /\ ((k < 97 \/ 122 < k < 181 \/ 181 < k < 223
                   \/ k = 247)%nat ->
                  label = String c r)).
Proof.
  split; [|split].
  - apply (step_total st (Drop event)).
  - apply onDrop_no_type.
  - intros c r Hty Hdata.
    assert (Hne : reactflow_type event <> "") by (rewrite Hty; discriminate).
    destruct (onDrop_node st event Hne) as [d [Hd Hl]].
    rewrite Hdata, Hty, capitalize_first in Hl.
    subst d. eexists. eexists. split; [exact Hd|]. simpl.
    split; [reflexivity|]. split; [reflexivity|].
    apply toUpperCaseUnit_cases.
Qed.

Lemma onDrop_never_throws_witness :
  onDrop defaultEditor Sample.dropNothing = JS.Normal defaultEditor
  /\ (exists n st',
         onDrop defaultEditor Sample.dropBroken = JS.Normal st'
         /\ nodes st' = [n]
         /\ edges st' = []
         /\ NodeData.label (Node.data n) = "System")
  /\ (exists n st',
         onDrop defaultEditor
                {| reactflow_type := String "223" "eta";
                   reactflow_data := NotJson;
                   flowPosition := Sample.origin |}
         = JS.Normal st'
         /\ nodes st' = [n]
         /\ NodeData.label (Node.data n) = "SSeta")
  /\ (exists n st',
         onDrop defaultEditor
                {| reactflow_type := "2nd";
                   reactflow_data := NotJson;
                   flowPosition := Sample.origin |}
         = JS.Normal st'
         /\ nodes st' = [n]
         /\ NodeData.label (Node.data n) = "2nd").
Proof.
  split; [|split; [|split]].
  - apply (onDrop_never_throws defaultEditor Sample.dropNothing).
    reflexivity.
  - destruct (onDrop_never_throws defaultEditor Sample.dropBroken)
      as [_ [_ H]].
    destruct (H "s"%char "ystem" eq_refl eq_refl)
      as [n [st' [H1 [H2 [H3 [Hlow _]]]]]].
    exists n, st'. repeat split; try assumption.
    apply Hlow. vm_compute. lia.
  - destruct (onDrop_never_throws
                defaultEditor
                {| reactflow_type := String "223" "eta";
                   reactflow_data := NotJson;
                   flowPosition := Sample.origin |})
      as [_ [_ H]].
    destruct (H "223"%char "eta" eq_refl eq_refl)
      as [n [st' [H1 [H2 [_ [_ [Hss _]]]]]]].
    exists n, st'. repeat split; try assumption.
    apply Hss. reflexivity.
  - destruct (onDrop_never_throws
                defaultEditor
                {| reactflow_type := "2nd";
                   reactflow_data := NotJson;
                   flowPosition := Sample.origin |})
      as [_ [_ H]].
    destruct (H "2"%char "nd" eq_refl eq_refl)
      as [n [st' [H1 [H2 [_ [_ [_ Hkeep]]]]]]].
    exists n, st'. repeat split; try assumption.
    apply Hkeep. vm_compute. lia.
Defined.

(** C9, as stated, fails: not in every diagram state is the new id a
    fresh one.  The editor mounted with a node of an earlier page load
    holds a diagram that validates, and a drop there gives the new node
    the id the old one has. *)
Lemma drop_after_reload_repeats_an_id :
  validate Sample.reloaded = true
  /\ map Node.id (nodes Sample.reloaded) = ["node_1"]
  /\ exists n st',
      onDrop Sample.reloaded Sample.dropActor = JS.Normal st'
      /\ nodes st' = (nodes Sample.reloaded ++ [n])%list
      /\ Node.id n = "node_1"
      /\ validate st' = false.
Proof.
  split; [reflexivity|]. split; [reflexivity|].
  eexists. eexists. split; [reflexivity|]. repeat split.
Qed.

(** C9 (amended): in every diagram state a drop with a type tag makes one
    node, gives it the id [generateNodeId] produces, puts it at the end
    of the node collection, and leaves the earlier nodes and all edges
    as they were.  The id differs from every id on the canvas whenever
    those were issued by the counter, as they are in every session that
    starts on an empty canvas, wherever the counter stands. *)
Theorem onDrop_appends_node (st : Editor) (event : DragEvent) :
  reactflow_type event <> "" ->
  (exists n st',
      onDrop st event = JS.Normal st'
      /\ nodes st' = (nodes st ++ [n])%list
      /\ edges st' = edges st
      /\ Node.id n = fst (generateNodeId st)
      /\ nodeIdCounter st' = nodeIdCounter (snd (generateNodeId st))
      /\ Node.type n = reactflow_type event
      /\ Node.position n = flowPosition event
      /\ (issued st -> ~ In (Node.id n) (map Node.id (nodes st))))
  /\ (forall start ops,
         nodes start = [] ->
         run start ops = JS.Normal st -> issued st).
Proof.
  intros Hty. split.
  - destruct (onDrop_node st event Hty) as [d [Hd _]].
    eexists. eexists. split; [exact Hd|]. simpl. repeat split.
    apply issued_fresh.
  - intros start ops Hempty Hr.
    apply (run_node_ids ops start st Hr).
    unfold issued. rewrite Hempty. split; constructor.
Qed.

Lemma onDrop_appends_node_witness :
  exists n st',
    onDrop Sample.twoNodes Sample.dropUseCase = JS.Normal st'
    /\ nodes st' = (nodes Sample.twoNodes ++ [n])%list
    /\ edges st' = edges Sample.twoNodes
    /\ Node.id n = "node_3"
    /\ ~ In (Node.id n) ["node_1"; "node_2"].
Proof.
  assert (Hty : reactflow_type Sample.dropUseCase <> "")
    by (simpl; discriminate).
  destruct (onDrop_appends_node Sample.twoNodes Sample.dropUseCase Hty)
    as [[n [st' [H1 [H2 [H3 [H4 [_ [_ [_ H8]]]]]]]]] Hsession].
  exists n, st'. repeat split; try assumption.
  apply H8.
  apply (Hsession defaultEditor
                  [Drop Sample.dropActor; Drop Sample.dropUseCase]);
    reflexivity.
Defined.

(** C7: an edge made by [onConnect] while the sidebar shows the dependency
    type carries the dependency kind [include] and no label (a connection
    has no field through which a caller could ask for [extend]); one made
    while it shows the association type carries no data at all.  From the
    empty editor, dropping an actor and a use case and connecting them
    gives two nodes and one association edge without a label, whatever
    the clock reads. *)
Theorem onConnect_edge_data :
  (forall st params now e,
      In e (edges (onConnect st params now)) ->
      ~ In e (edges st) ->
      e = newEdge (selectedEdgeType st) params now
      /\ (selectedEdgeType st = "dependency" ->
          Edge.dependencyType e = Some include /\ Edge.label e = None)
      /\ (selectedEdgeType st = "association" ->
          Edge.data e = None /\ Edge.label e = None
          /\ Edge.dependencyType e = None))
  /\ (forall now,
         exists n1 n2 e st,
           run defaultEditor
               [ Drop Sample.dropCustomer; Drop Sample.dropCheckout;
                 Connect Sample.actorToUseCase now ] = JS.Normal st
           /\ nodes st = [n1; n2]
           /\ edges st = [e]
           /\ Node.type n1 = "actor"
           /\ NodeData.label (Node.data n1) = "Customer"
           /\ Node.type n2 = "usecase"
           /\ NodeData.label (Node.data n2) = "Checkout"
           /\ Edge.type e = "association"
           /\ Edge.source e = Node.id n1
           /\ Edge.target e = Node.id n2
           /\ Edge.label e = None
           /\ Edge.data e = None).
Proof.
  split.
  - intros st params now e Hin Hnew.
    assert (He : e = newEdge (selectedEdgeType st) params now).
    { destruct (onConnect_edges st params now) as [H | H];
        rewrite H in Hin; [contradiction|].
      apply in_app_iff in Hin. destruct Hin as [Hin | [Hin | []]];
        [contradiction | now symmetry]. }
    split; [exact He|]. subst e. unfold Edge.dependencyType, Edge.label.
    split; intros ->; simpl; repeat split.
  - intros now. do 4 eexists. split; [reflexivity|]. simpl. repeat split.
Qed.

Lemma onConnect_edge_data_witness :
  let st := setSelectedEdgeType "dependency" Sample.twoNodes in
  let e := newEdge "dependency" Sample.actorToUseCase Sample.noon in
  edges (onConnect st Sample.actorToUseCase Sample.noon) = [e]
  /\ Edge.dependencyType e = Some include
  /\ Edge.label e = None.
Proof.
  simpl. split; [reflexivity|].
  destruct onConnect_edge_data as [H _].
  apply (H (setSelectedEdgeType "dependency" Sample.twoNodes)
           Sample.actorToUseCase Sample.noon).
  - left. reflexivity.
  - simpl. tauto.
  - reflexivity.
Defined.

(* ====================================================================== *)
(** ** Labels *)
(* ====================================================================== *)

Lemma guillemets_not_empty (s : string) : guillemets s <> "".
Proof.
  discriminate.
Qed.


Lemma handleSave_edge_at (st : Editor) (i : nat) (e : Edge.t)
      (value editValue : string) :
  nth_error (edges st) i = Some e ->
  JS.trim editValue <> value ->
  nth_error
    (edges (EditableEdgeLabel_handleSave (Edge.id e) value editValue st)) i
  = Some (Edge.with_data e
            (Some (EdgeData.mk (Some (JS.trim editValue))
                               (Edge.dependencyType e)))).
Proof.
  intros Hi Hne. unfold EditableEdgeLabel_handleSave.
  apply String.eqb_neq in Hne. rewrite Hne. simpl.
  rewrite nth_error_map, Hi. simpl. now rewrite String.eqb_refl.
Qed.

Lemma handleSave_edge_same (st : Editor) (edgeId value editValue : string) :
  JS.trim editValue = value ->
  EditableEdgeLabel_handleSave edgeId value editValue st = st.
Proof.
  intros H. unfold EditableEdgeLabel_handleSave.
  apply String.eqb_eq in H. now rewrite H.
Qed.






Lemma handleSave_node_at (st : Editor) (i : nat) (n : Node.t)
      (value editValue : string) :
  nth_error (nodes st) i = Some n ->
  JS.trim editValue <> "" ->
  JS.trim editValue <> value ->
  nth_error
    (nodes (EditableLabel_handleSave (Node.id n) value editValue st)) i
  = Some (Node.with_label n (JS.trim editValue)).
Proof.
  intros Hi Hne Hd. unfold EditableLabel_handleSave, JS.truthy.
  apply String.eqb_neq in Hne, Hd. rewrite Hne, Hd. simpl.
  rewrite nth_error_map, Hi. simpl. now rewrite String.eqb_refl.
Qed.

Lemma handleSave_node_same (st : Editor) (nodeId value editValue : string) :
  JS.trim editValue = "" \/ JS.trim editValue = value ->
  EditableLabel_handleSave nodeId value editValue st = st.
Proof.
  intros H. unfold EditableLabel_handleSave, JS.truthy.
  destruct H as [H | H]; apply String.eqb_eq in H; rewrite H;
    [reflexivity | now rewrite andb_false_r].
Qed.

Lemma handleSave_node_others (st : Editor) (nodeId value editValue : string)
      (j : nat) (m : Node.t) :
  nth_error (nodes st) j = Some m ->
  Node.id m <> nodeId ->
  nth_error (nodes (EditableLabel_handleSave nodeId value editValue st)) j
  = Some m.
Proof.
  intros Hj Hne. unfold EditableLabel_handleSave.
  destruct (JS.truthy (JS.trim editValue)
            && negb (JS.trim editValue =? value)); simpl; [|exact Hj].
  rewrite nth_error_map, Hj. simpl.
  apply String.eqb_neq in Hne. now rewrite Hne.
Qed.

Lemma handleSave_edge_others (st : Editor) (edgeId value editValue : string)
      (j : nat) (m : Edge.t) :
  nth_error (edges st) j = Some m ->
  Edge.id m <> edgeId ->
  nth_error (edges (EditableEdgeLabel_handleSave edgeId value editValue st)) j
  = Some m.
Proof.
  intros Hj Hne. unfold EditableEdgeLabel_handleSave.
  destruct (negb (JS.trim editValue =? value)); simpl; [|exact Hj].
  rewrite nth_error_map, Hj. simpl.
  apply String.eqb_neq in Hne. now rewrite Hne.
Qed.

(** C4, as stated, fails for edges: a commit of blank text through the
    label editor of an edge whose label is ["uses"] stores the empty
    string as the label.  The editor state is one a session reaches. *)
Lemma blank_commit_clears_edge_label :
  run defaultEditor Sample.labelDependency
  = JS.Normal Sample.withLabelledEdge
  /\ map Edge.label (edges Sample.withLabelledEdge) = [Some "uses"]
  /\ JS.trim "   " = ""
  /\ exists st',
      step Sample.withLabelledEdge (RelabelEdge 0 "   ") = JS.Normal st'
      /\ map Edge.label (edges st') = [Some ""].
Proof.
  repeat split. eexists. split; reflexivity.
Qed.

(** C4 (amended): a commit of text [t] through the label editor of a
    node sets the node's label to [t.trim()] when that is non-empty and
    differs from the label, and changes nothing otherwise.  A commit
    through the label editor of an edge sets the edge's label to
    [t.trim()] whenever that differs from the text the editor showed, and
    changes nothing otherwise.  Elements with another id keep their
    place and content.  In particular a node keeps its label on [""] and
    on ["   "], and [" New "] is stored as ["New"]. *)
Theorem relabel_commit :
  (forall st i n t,
      nth_error (nodes st) i = Some n ->
      exists st',
        step st (RelabelNode i t) = JS.Normal st'
        /\ edges st' = edges st
        /\ (JS.trim t <> "" ->
            JS.trim t <> NodeData.label (Node.data n) ->
            nth_error (nodes st') i = Some (Node.with_label n (JS.trim t)))
        /\ (JS.trim t = "" \/ JS.trim t = NodeData.label (Node.data n) ->
            st' = st)
        /\ (forall j m,
               nth_error (nodes st) j = Some m ->
               Node.id m <> Node.id n ->
               nth_error (nodes st') j = Some m))
  /\ (forall st i e value t,
         nth_error (edges st) i = Some e ->
         edgeLabelEditor e = Some value ->
         exists st',
           step st (RelabelEdge i t) = JS.Normal st'
           /\ nodes st' = nodes st
           /\ (JS.trim t <> value ->
               exists e',
                 nth_error (edges st') i = Some e'
                 /\ Edge.label e' = Some (JS.trim t)
                 /\ Edge.dependencyType e' = Edge.dependencyType e
                 /\ edgeKey e' = edgeKey e)
           /\ (JS.trim t = value -> st' = st)
           /\ (forall j m,
                  nth_error (edges st) j = Some m ->
                  Edge.id m <> Edge.id e ->
                  nth_error (edges st') j = Some m))
  /\ JS.trim "" = ""
  /\ JS.trim "   " = ""
  /\ JS.trim " New " = "New".
Proof.
  split; [|split; [|repeat split]].
  - intros st i n t Hi. simpl. rewrite Hi. eexists. split; [reflexivity|].
    split; [apply handleSave_node_keys|].
    split; [now apply handleSave_node_at|].
    split; [apply handleSave_node_same|].
    intros j m. apply handleSave_node_others.
  - intros st i e value t Hi Hv. simpl. rewrite Hi, Hv.
    eexists. split; [reflexivity|].
    split; [apply handleSave_edge_nodes|].
    split; [|split; [apply handleSave_edge_same|]].
    + intros Hne. eexists. split; [now apply handleSave_edge_at|].
      repeat split.
    + intros j m. apply handleSave_edge_others.
Qed.

Lemma relabel_commit_witness :
  (exists st',
      step Sample.twoNodes (RelabelNode 0 " New ") = JS.Normal st'
      /\ map (fun n => NodeData.label (Node.data n)) (nodes st')
         = ["New"; "Use Case"])
  /\ step Sample.twoNodes (RelabelNode 0 "   ") = JS.Normal Sample.twoNodes
  /\ (exists st' e',
         step Sample.withLabelledEdge (RelabelEdge 0 " New ")
         = JS.Normal st'
         /\ nth_error (edges st') 0 = Some e'
         /\ Edge.label e' = Some "New").
Proof.
  destruct relabel_commit as [Hnode [Hedge _]].
  split; [|split].
  - destruct (Hnode Sample.twoNodes 0%nat
                    (Node.mk "node_1" "actor" Sample.origin
                             (NodeData.mk "Actor") false)
                    " New " eq_refl)
      as [st' [Hs [_ [Hset [_ Hothers]]]]].
    exists st'. split; [exact Hs|].
    injection Hs as <-. reflexivity.
  - destruct (Hnode Sample.twoNodes 0%nat
                    (Node.mk "node_1" "actor" Sample.origin
                             (NodeData.mk "Actor") false)
                    "   " eq_refl)
      as [st' [Hs [_ [_ [Hsame _]]]]].
    rewrite Hs. f_equal. apply Hsame. left. reflexivity.
  - destruct (Hedge Sample.withLabelledEdge 0%nat Sample.labelled
                    "uses" " New " eq_refl eq_refl)
      as [st' [Hs [_ [Hset _]]]].
    destruct Hset as [e' [He [Hl _]]].
    + simpl. discriminate.
    + exists st', e'. repeat split; assumption.
Defined.

(* ====================================================================== *)
(** ** Deleting *)
(* ====================================================================== *)

(** C2, on the editor with an actor, a use case and the association
    between them, the actor selected (a state a session reaches):
    [handleDeleteSelected] takes the actor off the canvas and leaves the
    association, whose source is the actor, in the edge collection. *)
Theorem handleDeleteSelected_leaves_edge_of_deleted_node :
  run defaultEditor
      [ Drop Sample.dropActor; Drop Sample.dropUseCase;
        Connect Sample.actorToUseCase Sample.noon;
        SelectNode "node_1" true ]
  = JS.Normal Sample.actorSelected
  /\ map Node.id (nodes (handleDeleteSelected Sample.actorSelected))
     = ["node_2"]
  /\ edges (handleDeleteSelected Sample.actorSelected)
     = edges Sample.actorSelected
  /\ map Edge.source (edges (handleDeleteSelected Sample.actorSelected))
     = ["node_1"]
  /\ validate (handleDeleteSelected Sample.actorSelected) = false.
Proof.
  repeat split.
Qed.

(* ====================================================================== *)
(** ** Ids and validity along sessions *)
(* ====================================================================== *)

Lemma step_stamped (st st' : Editor) (op : Op) (used : list Z) :
  step st op = JS.Normal st' ->
  stamped used st -> stamped (used ++ stamps [op]) st'.
Proof.
  intros Hs Hst. unfold stamped in *.
  destruct (step_edges st st' op Hs)
    as [Hk | [[params [now [-> He]]] | [-> He]]].
  - rewrite (edge_ids_of_keys (edges st')), Hk, <- edge_ids_of_keys.
    eapply Forall_impl; [|exact Hst]. intros i. apply stampedId_more.
  - rewrite He, map_app. apply Forall_app. split.
    + eapply Forall_impl; [|exact Hst]. intros i. apply stampedId_more.
    + constructor; [|constructor]. exists now. split; [|reflexivity].
      apply in_app_iff. right. now left.
  - rewrite He. apply Forall_map_filter.
    eapply Forall_impl; [|exact Hst]. intros i. apply stampedId_more.
Qed.

Lemma run_stamped (ops : list Op) (st st' : Editor) (used : list Z) :
  run st ops = JS.Normal st' ->
  stamped used st -> stamped (used ++ stamps ops) st'.
Proof.
  revert st used. induction ops as [|op rest IH]; intros st used Hr Hst.
  - simpl in *. injection Hr as <-. now rewrite app_nil_r.
  - simpl in Hr.
    destruct (step st op) as [st1|] eqn:Hs; simpl in Hr; [|discriminate].
    rewrite stamps_cons, app_assoc.
    apply (IH st1 _ Hr). now apply (step_stamped st st1 op).
Qed.

(** C6, as stated, fails.  Two connections made while the clock shows
    the same millisecond get the same edge id; and in an editor mounted
    with a node of an earlier page load, the next drop repeats that
    node's id. *)
Lemma ids_collide :
  (exists st,
      run defaultEditor Sample.twoConnectsAtOnce = JS.Normal st
      /\ map Edge.id (edges st)
         = ["edge_1768219200000"; "edge_1768219200000"]
      /\ map Edge.target (edges st) = ["node_2"; "node_3"])
  /\ (exists st',
         onDrop Sample.reloaded Sample.dropUseCase = JS.Normal st'
         /\ map Node.id (nodes st') = ["node_1"; "node_1"]).
Proof.
  split; eexists; repeat split.
Qed.

(** C6 (amended): in every session that starts from the empty editor,
    node ids stay unique and the node a drop creates gets an id no node
    on the canvas has.  The edge a connection creates gets an id no edge
    on the canvas has whenever the clock reading differs from the
    readings of the session's earlier connections; edge ids stay unique
    in every session whose connections have pairwise different clock
    readings. *)
Theorem ids_fresh_in_sessions (ops : list Op) :
  exists st,
    run defaultEditor ops = JS.Normal st
    /\ NoDup (map Node.id (nodes st))
    /\ (forall event,
           reactflow_type event <> "" ->
           exists n st',
             onDrop st event = JS.Normal st'
             /\ nodes st' = (nodes st ++ [n])%list
             /\ ~ In (Node.id n) (map Node.id (nodes st))
             /\ NoDup (map Node.id (nodes st')))
    /\ (forall params now,
           ~ In now (stamps ops) ->
           ~ In (Edge.id (newEdge (selectedEdgeType st) params now))
                (map Edge.id (edges st)))
    /\ (NoDup (stamps ops) -> NoDup (map Edge.id (edges st))).
Proof.
  destruct (run_total ops defaultEditor) as [st Hr]. exists st.
  destruct (run_node_ids ops defaultEditor st Hr defaultEditor_node_ids)
    as [Hd Hi].
  split; [exact Hr|]. split; [exact Hd|]. split; [|split].
  - intros event Hty.
    destruct (onDrop_node st event Hty) as [d [Ho _]].
    eexists. eexists. split; [exact Ho|]. simpl.
    split; [reflexivity|].
    split; [now apply issued_fresh|].
    rewrite map_app. apply NoDup_snoc; [exact Hd | now apply issued_fresh].
  - intros params now Hnew Hin.
    assert (Hst : stamped ([] ++ stamps ops) st).
    { apply (run_stamped ops defaultEditor st [] Hr). constructor. }
    unfold stamped in Hst. rewrite Forall_forall in Hst.
    destruct (Hst _ Hin) as [t [Ht Heq]]. simpl in Heq.
    apply edgeId_inj in Heq. subst t. contradiction.
  - intros Hu.
    apply (run_edge_ids ops defaultEditor st [] Hr Hu).
    split; constructor.
Qed.

Lemma ids_fresh_in_sessions_witness :
  exists st,
    run defaultEditor Sample.tidy = JS.Normal st
    /\ NoDup (map Edge.id (edges st))
    /\ ~ In (edgeId (Sample.noon + 2)) (map Edge.id (edges st))
    /\ exists n st',
        onDrop st Sample.dropActor = JS.Normal st'
        /\ ~ In (Node.id n) (map Node.id (nodes st)).
Proof.
  destruct (ids_fresh_in_sessions Sample.tidy)
    as [st [Hr [_ [Hdrop [Hconn Hdup]]]]].
  exists st. split; [exact Hr|]. split; [|split].
  - apply Hdup. vm_compute.
    constructor; [intros [H | []]; discriminate H|].
    constructor; [intros [] | constructor].
  - apply (Hconn Sample.actorToUseCase (Sample.noon + 2)%Z).
    vm_compute. intros [H | [H | []]]; discriminate H.
  - destruct (Hdrop Sample.dropActor) as [n [st' [Ho [_ [Hfresh _]]]]].
    + simpl. discriminate.
    + exists n, st'. split; assumption.
Defined.

(** C1, as stated, fails: each of these sessions from the empty editor
    ends in a diagram that does not validate.  The first connects to a
    node id that is not on the canvas; the second deletes a selected node
    whose edge is not selected; the third connects twice within one
    millisecond. *)
Lemma sessions_that_do_not_validate :
  (exists st,
      run defaultEditor Sample.connectToNowhere = JS.Normal st
      /\ map Edge.target (edges st) = ["node_7"]
      /\ map Node.id (nodes st) = ["node_1"]
      /\ validate st = false)
  /\ (exists st,
         run defaultEditor Sample.deleteActor = JS.Normal st
         /\ map Edge.source (edges st) = ["node_1"]
         /\ map Node.id (nodes st) = ["node_2"]
         /\ validate st = false)
  /\ (exists st,
         run defaultEditor Sample.twoConnectsAtOnce = JS.Normal st
         /\ validate st = false).
Proof.
  repeat split; eexists; repeat split.
Qed.

(** C1 (amended): every session from the empty editor runs to an end
    without throwing and leaves node ids unique.  The diagram at the end
    validates (ids unique, every edge between existing nodes, on handles
    of those nodes) when the session's requests are well formed, which
    the editor does not check: each connection names two nodes on the
    canvas, a handle of each, and a clock reading whose id no edge has;
    and each deletion comes with every edge of a selected node selected
    too. *)
Theorem validate_after_session (ops : list Op) :
  exists st,
    run defaultEditor ops = JS.Normal st
    /\ unique (map Node.id (nodes st)) = true
    /\ (requestsOk defaultEditor ops = true -> validate st = true).
Proof.
  destruct (run_total ops defaultEditor) as [st Hr]. exists st.
  destruct (run_node_ids ops defaultEditor st Hr defaultEditor_node_ids)
    as [Hd _].
  split; [exact Hr|]. split; [now apply unique_NoDup|].
  intros Hok. apply validate_iff. split; [exact Hd|].
  apply (run_wellFormed ops defaultEditor st Hr Hok).
  split; [constructor | reflexivity].
Qed.

Lemma validate_after_session_witness :
  requestsOk defaultEditor Sample.tidy = true
  /\ exists st,
      run defaultEditor Sample.tidy = JS.Normal st
      /\ validate st = true.
Proof.
  split; [vm_compute; reflexivity|].
  destruct (validate_after_session Sample.tidy) as [st [Hr [_ Hv]]].
  exists st. split; [exact Hr|].
  apply Hv. vm_compute. reflexivity.
Defined.

(* ====================================================================== *)
(** ** More on deleting: the toolbar and the Delete button *)
(* ====================================================================== *)

Lemma filter_negb_none {A} (f : A -> bool) (l : list A) :
  filter f (filter (fun a => negb (f a)) l) = [].
Proof.
  induction l as [|a r IH]; simpl; [reflexivity|].
  destruct (f a) eqn:E; simpl; [exact IH | now rewrite E].
Qed.

Lemma filter_twice {A} (f : A -> bool) (l : list A) :
  filter f (filter f l) = filter f l.
Proof.
  induction l as [|a r IH]; simpl; [reflexivity|].
  destruct (f a) eqn:E; simpl; [rewrite E; now f_equal | exact IH].
Qed.

Lemma filter_split_length {A} (f : A -> bool) (l : list A) :
  (List.length (filter f l)
   + List.length (filter (fun a => negb (f a)) l))%nat
  = List.length l.
Proof.
  induction l as [|a r IH]; simpl; [reflexivity|].
  destruct (f a); simpl; lia.
Qed.

Lemma filter_same_iff {A} (f : A -> bool) (l : list A) :
  filter (fun a => negb (f a)) l = l <-> filter f l = [].
Proof.
  induction l as [|a r IH]; simpl; [tauto|].
  destruct (f a); simpl.
  - split; [|discriminate]. intros H.
    assert (Hlen : (List.length (filter (fun a => negb (f a)) r)
                    <= List.length r)%nat) by apply filter_length_le.
    apply (f_equal (@List.length A)) in H. simpl in H. lia.
  - rewrite <- IH. split; [now injection 1 | now intros ->].
Qed.

Lemma hasSelection_false (st : Editor) :
  hasSelection st = false
  <-> filter (fun n => Node.selected n) (nodes st) = []
      /\ filter (fun e => Edge.selected e) (edges st) = [].
Proof.
  unfold hasSelection, selectedNodesCount, selectedEdgesCount.
  rewrite orb_false_iff, !Nat.ltb_ge. split.
  - intros [Hn He]. split; apply length_zero_iff_nil; lia.
  - intros [-> ->]. simpl. lia.
Qed.

(** X1: after the Delete button nothing is selected any more, so the
    toolbar with the button goes away; and pressing the button twice does
    what pressing it once does. *)
Theorem delete_clears_selection (st : Editor) :
  hasSelection (handleDeleteSelected st) = false
  /\ selectedNodesCount (handleDeleteSelected st) = 0%nat
  /\ selectedEdgesCount (handleDeleteSelected st) = 0%nat
  /\ handleDeleteSelected (handleDeleteSelected st) = handleDeleteSelected st.
Proof.
  assert (Hn : filter (fun n => Node.selected n)
                      (nodes (handleDeleteSelected st)) = [])
    by apply filter_negb_none.
  assert (He : filter (fun e => Edge.selected e)
                      (edges (handleDeleteSelected st)) = [])
    by apply filter_negb_none.
  split; [now apply hasSelection_false|].
  unfold selectedNodesCount, selectedEdgesCount. rewrite Hn, He.
  repeat split.
  unfold handleDeleteSelected, setNodes, setEdges. simpl.
  now rewrite !filter_twice.
Qed.

(** X2: the Delete button leaves the editor exactly as it was if and only
    if nothing is selected, which is when the toolbar does not show it. *)
Theorem delete_changes_nothing_iff (st : Editor) :
  handleDeleteSelected st = st <-> hasSelection st = false.
Proof.
  rewrite hasSelection_false, <- !filter_same_iff.
  destruct st as [nds eds ty c].
  unfold handleDeleteSelected, setNodes, setEdges. simpl. split.
  - intros H. injection H as Hn He. now split.
  - intros [-> ->]. reflexivity.
Qed.

(** X3: the Delete button removes as many nodes and as many edges as the
    toolbar counts as selected, and what stays is exactly what was not
    selected. *)
Theorem delete_removes_what_the_toolbar_counts (st : Editor) :
  (selectedNodesCount st + List.length (nodes (handleDeleteSelected st)))%nat
  = List.length (nodes st)
  /\ (selectedEdgesCount st
      + List.length (edges (handleDeleteSelected st)))%nat
     = List.length (edges st)
  /\ (forall n, In n (nodes (handleDeleteSelected st))
                <-> In n (nodes st) /\ Node.selected n = false)
  /\ (forall e, In e (edges (handleDeleteSelected st))
                <-> In e (edges st) /\ Edge.selected e = false).
Proof.
  unfold selectedNodesCount, selectedEdgesCount, handleDeleteSelected.
  simpl. split; [apply filter_split_length|].
  split; [apply filter_split_length|].
  split; intros a; rewrite filter_In, negb_true_iff; tauto.
Qed.

(* ====================================================================== *)
(** ** More on node ids: the counter and the order of creation *)
(* ====================================================================== *)

Lemma drops_cons (op : Op) (rest : list Op) :
  drops (op :: rest) = (drops [op] + drops rest)%nat.
Proof.
  destruct op; simpl; lia.
Qed.

Lemma keys_same_length (nds nds' : list Node.t) :
  map nodeKey nds' = map nodeKey nds -> List.length nds' = List.length nds.
Proof.
  intros H. apply (f_equal (@List.length _)) in H.
  now rewrite !length_map in H.
Qed.

Lemma step_counts (st st' : Editor) (op : Op) :
  step st op = JS.Normal st' ->
  nodeIdCounter st' = (nodeIdCounter st + N.of_nat (drops [op]))%N
  /\ (List.length (nodes st') <= List.length (nodes st) + drops [op])%nat.
Proof.
  destruct op; simpl; intros H.
  - destruct (string_dec (reactflow_type event) "") as [E|E].
    + rewrite (onDrop_no_type st event E) in H. injection H as <-.
      rewrite E. simpl. split; lia.
    + destruct (onDrop_node st event E) as [d [Hd _]]. rewrite Hd in H.
      injection H as <-. unfold JS.truthy.
      apply String.eqb_neq in E. rewrite E. simpl.
      rewrite length_app. simpl. split; lia.
  - injection H as <-. simpl. split; lia.
  - injection H as <-. simpl. split; lia.
  - injection H as <-. simpl. unfold ReactFlow.selectNode.
    rewrite length_map. split; lia.
  - injection H as <-. simpl. split; lia.
  - injection H as <-. simpl.
    pose proof (filter_length_le (fun n => negb (Node.selected n))
                                 (nodes st)).
    split; lia.
  - destruct (nth_error (nodes st) i) as [n|]; injection H as <-;
      [|split; lia].
    destruct (handleSave_node_keys (Node.id n) (NodeData.label (Node.data n))
                                   editValue st) as [H1 [H2 _]].
    apply keys_same_length in H1. rewrite H1, H2. split; lia.
  - destruct (nth_error (edges st) i) as [e|];
      [|injection H as <-; split; lia].
    destruct (edgeLabelEditor e) as [value|]; injection H as <-;
      [|split; lia].
    destruct (handleSave_edge_nodes (Edge.id e) value editValue st)
      as [H1 H2].
    rewrite H1, H2. split; lia.
Qed.

Lemma run_counts (ops : list Op) (st st' : Editor) :
  run st ops = JS.Normal st' ->
  nodeIdCounter st' = (nodeIdCounter st + N.of_nat (drops ops))%N
  /\ (List.length (nodes st') <= List.length (nodes st) + drops ops)%nat.
Proof.
  revert st. induction ops as [|op rest IH]; intros st Hr.
  - simpl in *. injection Hr as <-. split; lia.
  - simpl in Hr.
    destruct (step st op) as [st1|] eqn:Hs; simpl in Hr; [|discriminate].
    destruct (step_counts st st1 op Hs) as [H1 H2].
    destruct (IH st1 Hr) as [H3 H4].
    rewrite drops_cons. split; lia.
Qed.

(** X4: through a session, from whatever state it starts in, the id
    counter advances by the number of drops that carried a type tag:
    every such drop takes one id and nothing else takes any, so the
    counter never goes back.  The canvas gains at most one node for each
    such drop. *)
Theorem counter_counts_drops (start : Editor) (ops : list Op) (st : Editor) :
  run start ops = JS.Normal st ->
  nodeIdCounter st = (nodeIdCounter start + N.of_nat (drops ops))%N
  /\ (nodeIdCounter start <= nodeIdCounter st)%N
  /\ (List.length (nodes st)
      <= List.length (nodes start) + drops ops)%nat.
Proof.
  intros Hr. destruct (run_counts ops start st Hr) as [H1 H2].
  split; [exact H1|]. split; [lia | exact H2].
Qed.

Lemma counter_counts_drops_witness :
  exists st,
    run Sample.reloaded Sample.tidy = JS.Normal st
    /\ nodeIdCounter st = 4%N
    /\ (List.length (nodes st) <= 4)%nat.
Proof.
  destruct (run_total Sample.tidy Sample.reloaded) as [st Hr].
  exists st. split; [exact Hr|].
  destruct (counter_counts_drops Sample.reloaded Sample.tidy st Hr)
    as [H1 [_ H2]].
  split; [exact H1 | exact H2].
Defined.

Lemma SSorted_snoc {A} (R : A -> A -> Prop) (l : list A) (a : A) :
  StronglySorted R l -> Forall (fun b => R b a) l ->
  StronglySorted R (l ++ [a]).
Proof.
  induction 1 as [|b r Hs IH Hb]; simpl; intros Hall.
  - constructor; constructor.
  - inversion Hall; subst. constructor; [now apply IH|].
    apply Forall_app. split; [exact Hb | now constructor].
Qed.

Lemma SSorted_map_filter {A B} (R : B -> B -> Prop) (g : A -> B)
      (f : A -> bool) (l : list A) :
  StronglySorted R (map g l) -> StronglySorted R (map g (filter f l)).
Proof.
  induction l as [|a r IH]; simpl; intros H; [constructor|].
  inversion H; subst. destruct (f a); simpl.
  - constructor; [now apply IH | now apply Forall_map_filter].
  - now apply IH.
Qed.

Lemma step_order (st st' : Editor) (op : Op) :
  step st op = JS.Normal st' ->
  issued st ->
  StronglySorted createdBefore (map Node.id (nodes st)) ->
  StronglySorted createdBefore (map Node.id (nodes st')).
Proof.
  intros Hs Hi Hso.
  destruct (step_nodes st st' op Hs)
    as [[n [Hn [Hid Hc]]] | [Hc [Hsame | [_ Hfil]]]].
  - rewrite Hn, map_app. simpl. rewrite Hid.
    apply SSorted_snoc; [exact Hso|].
    eapply Forall_impl; [|exact Hi].
    intros i [k [Hlt Heq]]. exists k, (nodeIdCounter st). tauto.
  - now rewrite (ids_of_keys (nodes st')), Hsame, <- ids_of_keys.
  - rewrite Hfil. now apply SSorted_map_filter.
Qed.

Lemma run_order (ops : list Op) (st st' : Editor) :
  run st ops = JS.Normal st' ->
  NoDup (map Node.id (nodes st)) /\ issued st ->
  StronglySorted createdBefore (map Node.id (nodes st)) ->
  StronglySorted createdBefore (map Node.id (nodes st')).
Proof.
  revert st. induction ops as [|op rest IH]; simpl; intros st Hr Hinv Hso.
  - now injection Hr as <-.
  - destruct (step st op) as [st1|] eqn:Hs; simpl in Hr; [|discriminate].
    apply (IH st1 Hr).
    + now apply (step_node_ids st st1 op).
    + apply (step_order st st1 op Hs); tauto.
Qed.

(** X5: in a session from the empty editor the nodes stand in the order
    of their creation, whatever was deleted, selected or relabelled in
    between: of two nodes on the canvas, the earlier one in the
    collection has the id the counter handed out first. *)
Theorem nodes_in_creation_order (ops : list Op) (st : Editor) :
  run defaultEditor ops = JS.Normal st ->
  StronglySorted createdBefore (map Node.id (nodes st)).
Proof.
  intros Hr.
  apply (run_order ops defaultEditor st Hr defaultEditor_node_ids).
  constructor.
Qed.

Lemma nodes_in_creation_order_witness :
  exists st,
    run defaultEditor Sample.tidy = JS.Normal st
    /\ StronglySorted createdBefore (map Node.id (nodes st)).
Proof.
  destruct (run_total Sample.tidy defaultEditor) as [st Hr].
  exists st. split; [exact Hr|].
  exact (nodes_in_creation_order Sample.tidy st Hr).
Defined.

(* ====================================================================== *)
(** ** More on connecting *)
(* ====================================================================== *)

Lemma option_string_eqb_refl (a : option string) :
  ReactFlow.option_string_eqb a a = true.
Proof.
  destruct a; simpl; [apply String.eqb_refl | reflexivity].
Qed.

Lemma connectionExists_ends (e e' : Edge.t) (l : list Edge.t) :
  Edge.source e' = Edge.source e ->
  Edge.target e' = Edge.target e ->
  Edge.sourceHandle e' = Edge.sourceHandle e ->
  Edge.targetHandle e' = Edge.targetHandle e ->
  ReactFlow.connectionExists e' l = ReactFlow.connectionExists e l.
Proof.
  unfold ReactFlow.connectionExists. now intros -> -> -> ->.
Qed.

Lemma connectionExists_last (e : Edge.t) (l : list Edge.t) :
  ReactFlow.connectionExists e (l ++ [e]) = true.
Proof.
  unfold ReactFlow.connectionExists. rewrite existsb_app. simpl.
  rewrite !String.eqb_refl, !option_string_eqb_refl.
  simpl. apply orb_true_r.
Qed.

Lemma addEdge_again (e e' : Edge.t) (l : list Edge.t) :
  Edge.source e' = Edge.source e ->
  Edge.target e' = Edge.target e ->
  Edge.sourceHandle e' = Edge.sourceHandle e ->
  Edge.targetHandle e' = Edge.targetHandle e ->
  ReactFlow.addEdge e' (ReactFlow.addEdge e l) = ReactFlow.addEdge e l.
Proof.
  intros Hs Ht Hsh Hth. unfold ReactFlow.addEdge. rewrite Hs, Ht.
  destruct (negb (JS.truthy (Edge.source e))
            || negb (JS.truthy (Edge.target e))) eqn:Hends.
  - reflexivity.
  - destruct (ReactFlow.connectionExists e l) eqn:Hex.
    + now rewrite (connectionExists_ends e e' l Hs Ht Hsh Hth), Hex.
    + rewrite (connectionExists_ends e e' _ Hs Ht Hsh Hth).
      now rewrite connectionExists_last.
Qed.

(** X6: a connection between two handles is made once.  Connecting the
    same two handles of the same two nodes again leaves the edge
    collection as the first connection left it, whatever edge type the
    sidebar shows by then and whatever the clock reads. *)
Theorem second_connection_is_refused (st : Editor) (params : Connection)
        (now later : Z) (type : string) :
  edges (onConnect (setSelectedEdgeType type (onConnect st params now))
                   params later)
  = edges (onConnect st params now).
Proof.
  unfold onConnect, setEdges, setSelectedEdgeType. simpl.
  now apply addEdge_again.
Qed.

Lemma step_edge_origin (st st' : Editor) (op : Op) :
  step st op = JS.Normal st' ->
  forall e', In e' (edges st') ->
    (exists e,
        In e (edges st)
        /\ Edge.id e' = Edge.id e
        /\ Edge.type e' = Edge.type e
        /\ Edge.dependencyType e' = Edge.dependencyType e)
    \/ (exists params now, e' = newEdge (selectedEdgeType st) params now).
Proof.
  intros Hs e' Hin.
  assert (Hsame : edges st' = edges st ->
                  exists e, In e (edges st)
                            /\ Edge.id e' = Edge.id e
                            /\ Edge.type e' = Edge.type e
                            /\ Edge.dependencyType e'
                               = Edge.dependencyType e).
  { intros H. rewrite H in Hin. now exists e'. }
  destruct op; simpl in Hs.
  - left. apply Hsame.
    destruct (string_dec (reactflow_type event) "") as [E|E].
    + rewrite (onDrop_no_type st event E) in Hs. now injection Hs as <-.
    + destruct (onDrop_node st event E) as [d [Hd _]]. rewrite Hd in Hs.
      now injection Hs as <-.
  - injection Hs as <-.
    destruct (onConnect_edges st params now) as [H | H].
    + left. now apply Hsame.
    + rewrite H in Hin. apply in_app_iff in Hin.
      destruct Hin as [Hin | [<- | []]].
      * left. now exists e'.
      * right. now exists params, now.
  - injection Hs as <-. left. now apply Hsame.
  - injection Hs as <-. left. now apply Hsame.
  - injection Hs as <-. left. simpl in Hin.
    unfold ReactFlow.selectEdge in Hin. apply in_map_iff in Hin.
    destruct Hin as [e [He Hin]]. exists e. split; [exact Hin|].
    subst e'. now destruct (Edge.id e =? id).
  - injection Hs as <-. left. simpl in Hin.
    apply filter_In in Hin. exists e'. tauto.
  - left. apply Hsame.
    destruct (nth_error (nodes st) i) as [n|]; injection Hs as <-;
      [|reflexivity].
    apply handleSave_node_keys.
  - left. destruct (nth_error (edges st) i) as [e|];
      [|injection Hs as <-; now apply Hsame].
    destruct (edgeLabelEditor e) as [value|]; injection Hs as <-;
      [|now apply Hsame].
    unfold EditableEdgeLabel_handleSave in Hin.
    destruct (negb (JS.trim editValue =? value)); [|now exists e'].
    simpl in Hin. apply in_map_iff in Hin.
    destruct Hin as [e0 [He0 Hin]]. exists e0. split; [exact Hin|].
    subst e'. now destruct (Edge.id e0 =? Edge.id e).
Qed.

Lemma newEdge_kind (type : string) (params : Connection) (now : Z) :
  Edge.dependencyType (newEdge type params now)
  = kindOfType (Edge.type (newEdge type params now)).
Proof.
  unfold Edge.dependencyType, kindOfType, newEdge. simpl.
  now destruct (type =? "dependency").
Qed.

Lemma run_kinds (ops : list Op) (st st' : Editor) :
  run st ops = JS.Normal st' ->
  (forall e, In e (edges st) ->
             Edge.dependencyType e = kindOfType (Edge.type e)) ->
  forall e, In e (edges st') ->
            Edge.dependencyType e = kindOfType (Edge.type e).
Proof.
  revert st. induction ops as [|op rest IH]; simpl; intros st Hr Hinv.
  - now injection Hr as <-.
  - destruct (step st op) as [st1|] eqn:Hs; simpl in Hr; [|discriminate].
    apply (IH st1 Hr). intros e' Hin.
    destruct (step_edge_origin st st1 op Hs e' Hin)
      as [[e [He [_ [Hty Hk]]]] | [params [now ->]]].
    + rewrite Hk, Hty. now apply Hinv.
    + apply newEdge_kind.
Qed.

(** X7: in a session from the empty editor an edge's dependency kind is
    decided by its type and never changes: it is [include] for an edge of
    type ['dependency'] and absent for every other edge.  No edge on the
    canvas is ever an [extend] dependency. *)
Theorem sessions_make_no_extend (ops : list Op) (st : Editor) (e : Edge.t) :
  run defaultEditor ops = JS.Normal st ->
  In e (edges st) ->
  Edge.dependencyType e = kindOfType (Edge.type e)
  /\ Edge.dependencyType e <> Some extend.
Proof.
  intros Hr Hin.
  assert (H : Edge.dependencyType e = kindOfType (Edge.type e)).
  { apply (run_kinds ops defaultEditor st Hr); [|exact Hin].
    intros e0 []. }
  split; [exact H|]. rewrite H. unfold kindOfType.
  destruct (Edge.type e =? "dependency"); discriminate.
Qed.

Lemma sessions_make_no_extend_witness :
  exists st e,
    run defaultEditor Sample.labelDependency = JS.Normal st
    /\ In e (edges st)
    /\ Edge.type e = "dependency"
    /\ Edge.dependencyType e = Some include.
Proof.
  exists Sample.withLabelledEdge, Sample.labelled.
  assert (Hr : run defaultEditor Sample.labelDependency
               = JS.Normal Sample.withLabelledEdge) by reflexivity.
  assert (Hin : In Sample.labelled (edges Sample.withLabelledEdge))
    by (left; reflexivity).
  split; [exact Hr|]. split; [exact Hin|]. split; [reflexivity|].
  exact (proj1 (sessions_make_no_extend Sample.labelDependency
                  Sample.withLabelledEdge Sample.labelled Hr Hin)).
Defined.

(* ====================================================================== *)
(** ** The mini map and the palette *)
(* ====================================================================== *)

(** X8: the mini map falls back to its grey exactly for the node types
    that have no component in the registry; a registered type has a
    colour of its own, shared with no other type tag. *)
Theorem nodeColor_follows_registry (type : string) :
  (nodeColor type = "#6b7280" <-> useCaseNodeTypes type = None)
  /\ (forall other,
         useCaseNodeTypes type <> None ->
         nodeColor other = nodeColor type -> other = type).
Proof.
  unfold nodeColor, useCaseNodeTypes. split.
  - destruct (type =? "actor"); [split; discriminate|].
    destruct (type =? "usecase"); [split; discriminate|].
    destruct (type =? "system"); [split; discriminate|].
    tauto.
  - intros other.
    destruct (type =? "actor") eqn:E1;
      [apply String.eqb_eq in E1|
       destruct (type =? "usecase") eqn:E2;
       [apply String.eqb_eq in E2|
        destruct (type =? "system") eqn:E3;
        [apply String.eqb_eq in E3 | congruence]]];
      intros _ H; subst type;
      destruct (other =? "actor") eqn:O1;
      try (now apply String.eqb_eq in O1);
      destruct (other =? "usecase") eqn:O2;
      try (now apply String.eqb_eq in O2);
      destruct (other =? "system") eqn:O3;
      try (now apply String.eqb_eq in O3);
      discriminate H.
Qed.

Lemma nodeColor_follows_registry_witness :
  nodeColor "note" = "#6b7280"
  /\ (forall other, nodeColor other = "#764ba2" -> other = "usecase").
Proof.
  destruct (nodeColor_follows_registry "note") as [Hgrey _].
  destruct (nodeColor_follows_registry "usecase") as [_ Hown].
  split.
  - apply Hgrey. reflexivity.
  - intros other H. apply Hown; [discriminate | exact H].
Defined.

(** X9: dragging a shape from the palette and dropping it on the canvas
    puts one node at the end of the collection, of the shape's type, at
    the drop point, labelled with the label of the shape's default data;
    without one, with the type tag, first letter in upper case (a letter
    a to z or a Latin-1 letter with a capital below 256 replaced by the
    code unit 32 below it, the sharp s by two capital S, any other first
    code unit kept; the micro sign and the y with diaeresis are not
    covered).  For the three shapes of the palette the type has a
    component in the registry and the label is the one the palette
    shows.  A connection entry of the palette sets nothing on the drag,
    and its drop leaves the editor as it was. *)
Theorem palette_drag_and_drop (st : Editor) (shape : ShapeDefinition.t)
        (position : XYPosition) :
  let event := dropAt (handleDragStart newDataTransfer shape) position in
  (ShapeDefinition.category shape = Category.nodes ->
   forall c r,
     ShapeDefinition.type shape = String c r ->
     exists n st',
       onDrop st event = JS.Normal st'
       /\ nodes st' = (nodes st ++ [n])%list
       /\ edges st' = edges st
       /\ Node.type n = ShapeDefinition.type shape
       /\ Node.position n = position
       /\ (forall l,
              ShapeDefinition.defaultData shape = Some (Some l) ->
              NodeData.label (Node.data n) = l)
       /\ (ShapeDefinition.defaultData shape = None
           \/ ShapeDefinition.defaultData shape = Some None ->
           let k := nat_of_ascii c in
           let label := NodeData.label (Node.data n) in
           ((97 <= k <= 122 \/ 224 <= k <= 254 /\ k <> 247)%nat ->
            label = String (ascii_of_nat (k - 32)) r)
           /\ (k = 223%nat -> label = String "S" (String "S" r))
           /\ ((k < 97 \/ 122 < k < 181 \/ 181 < k < 223
                \/ k = 247)%nat ->
               label = String c r)))
  /\ (In shape useCaseShapes ->
      exists n st',
        onDrop st event = JS.Normal st'
        /\ nodes st' = (nodes st ++ [n])%list
        /\ useCaseNodeTypes (Node.type n) <> None
        /\ NodeData.label (Node.data n) = ShapeDefinition.label shape)
  /\ (ShapeDefinition.category shape = Category.edges ->
      onDrop st event = JS.Normal st)
  /\ (In shape useCaseConnections -> onDrop st event = JS.Normal st).
Proof.
  simpl. split; [|split; [|split]].
  - intros Hcat c r Hty. unfold handleDragStart. rewrite Hcat.
    assert (Hne : ShapeDefinition.type shape <> "")
      by (rewrite Hty; discriminate).
    match goal with
    | |- context [onDrop st ?ev] =>
        destruct (onDrop_node st ev Hne) as [d [Hd Hl]]
    end.
    eexists. eexists. split; [exact Hd|]. simpl in *. subst d.
    split; [reflexivity|]. split; [reflexivity|].
    split; [reflexivity|]. split; [reflexivity|]. split.
    + intros l Hdata. now rewrite Hdata.
    + intros Hdata.
      pose proof (toUpperCaseUnit_cases c r) as Hcases.
      rewrite <- (capitalize_first c r) in Hcases.
      destruct Hdata as [Hnone | Hnone]; rewrite Hnone, Hty;
        exact Hcases.
  - intros Hin. simpl in Hin.
    destruct Hin as [<- | [<- | [<- | []]]];
      eexists; eexists; (split; [reflexivity|]); simpl;
      repeat split; discriminate.
  - intros Hcat. unfold handleDragStart. rewrite Hcat. reflexivity.
  - intros Hin. simpl in Hin.
    destruct Hin as [<- | [<- | []]]; reflexivity.
Qed.

Lemma palette_drag_and_drop_witness :
  (exists n st',
     onDrop Sample.twoNodes
            (dropAt (handleDragStart newDataTransfer
                       (ShapeDefinition.mk "usecase" "Use Case"
                          "System functionality or action"
                          Category.nodes (Some (Some "Use Case"))))
                    Sample.origin)
     = JS.Normal st'
     /\ nodes st' = (nodes Sample.twoNodes ++ [n])%list
     /\ NodeData.label (Node.data n) = "Use Case")
  /\ (exists n st',
        onDrop Sample.twoNodes
               (dropAt (handleDragStart newDataTransfer
                          (ShapeDefinition.mk "system" "System"
                             "System boundary" Category.nodes None))
                       Sample.origin)
        = JS.Normal st'
        /\ nodes st' = (nodes Sample.twoNodes ++ [n])%list
        /\ NodeData.label (Node.data n) = "System").
Proof.
  split.
  - destruct (palette_drag_and_drop
                Sample.twoNodes
                (ShapeDefinition.mk "usecase" "Use Case"
                   "System functionality or action"
                   Category.nodes (Some (Some "Use Case")))
                Sample.origin) as [_ [H _]].
    destruct H as [n [st' [H1 [H2 [_ H4]]]]].
    + right. left. reflexivity.
    + exists n, st'. repeat split; assumption.
  - destruct (palette_drag_and_drop
                Sample.twoNodes
                (ShapeDefinition.mk "system" "System"
                   "System boundary" Category.nodes None)
                Sample.origin) as [H _].
    destruct (H eq_refl "s"%char "ystem" eq_refl)
      as [n [st' [H1 [H2 [_ [_ [_ [_ H7]]]]]]]].
    exists n, st'. split; [exact H1|]. split; [exact H2|].
    destruct (H7 (or_introl eq_refl)) as [Hlower _].
    apply Hlower. left. change (97 <= 115 <= 122)%nat. lia.
Defined.

(* ====================================================================== *)
(** ** More on labels *)
(* ====================================================================== *)

Lemma NoDup_map_same {A B} (g : A -> B) (l : list A) (a b : A) :
  NoDup (map g l) -> In a l -> In b l -> g a = g b -> a = b.
Proof.
  induction l as [|c r IH]; simpl; intros Hd Ha Hb Heq; [contradiction|].
  inversion Hd as [|? ? Hn Hd']; subst.
  destruct Ha as [-> | Ha], Hb as [-> | Hb]; try reflexivity.
  - exfalso. apply Hn. rewrite Heq. now apply in_map.
  - exfalso. apply Hn. rewrite <- Heq. now apply in_map.
  - now apply IH.
Qed.

Lemma bare_association_has_no_editor (e : Edge.t) :
  Edge.type e = "association" -> Edge.data e = None ->
  edgeLabelEditor e = None.
Proof.
  unfold edgeLabelEditor, Edge.label. now intros -> ->.
Qed.

Lemma step_associations (st st' : Editor) (op : Op) :
  step st op = JS.Normal st' ->
  NoDup (map Edge.id (edges st)) ->
  (forall e, In e (edges st) ->
             Edge.type e = "association" -> Edge.data e = None) ->
  forall e, In e (edges st') ->
            Edge.type e = "association" -> Edge.data e = None.
Proof.
  intros Hs Hd HK.
  assert (Hsame : edges st' = edges st ->
                  forall e, In e (edges st') ->
                            Edge.type e = "association" ->
                            Edge.data e = None).
  { intros H. now rewrite H. }
  destruct op; simpl in Hs.
  - apply Hsame.
    destruct (string_dec (reactflow_type event) "") as [E|E].
    + rewrite (onDrop_no_type st event E) in Hs. now injection Hs as <-.
    + destruct (onDrop_node st event E) as [d [Ho _]]. rewrite Ho in Hs.
      now injection Hs as <-.
  - injection Hs as <-.
    destruct (onConnect_edges st params now) as [H | H];
      [now apply Hsame|].
    intros e Hin Hty. rewrite H in Hin. apply in_app_iff in Hin.
    destruct Hin as [Hin | [<- | []]]; [now apply HK|].
    simpl in *. now rewrite Hty.
  - injection Hs as <-. now apply Hsame.
  - injection Hs as <-. now apply Hsame.
  - injection Hs as <-. intros e' Hin Hty. simpl in Hin.
    unfold ReactFlow.selectEdge in Hin. apply in_map_iff in Hin.
    destruct Hin as [e [He Hin]]. subst e'.
    destruct (Edge.id e =? id); simpl in *; now apply HK.
  - injection Hs as <-. intros e Hin. simpl in Hin.
    apply filter_In in Hin. now apply HK.
  - apply Hsame.
    destruct (nth_error (nodes st) i) as [n|]; injection Hs as <-;
      [|reflexivity].
    apply handleSave_node_keys.
  - destruct (nth_error (edges st) i) as [e|] eqn:Hi;
      [|injection Hs as <-; now apply Hsame].
    destruct (edgeLabelEditor e) as [value|] eqn:Hed; injection Hs as <-;
      [|now apply Hsame].
    unfold EditableEdgeLabel_handleSave.
    destruct (negb (JS.trim editValue =? value)); [|exact HK].
    simpl. intros e' Hin Hty. apply in_map_iff in Hin.
    destruct Hin as [e0 [He0 Hin]].
    destruct (Edge.id e0 =? Edge.id e) eqn:Eid; [|subst e'; now apply HK].
    apply String.eqb_eq in Eid. apply nth_error_In in Hi.
    assert (e0 = e) by now apply (NoDup_map_same Edge.id (edges st)).
    subst e0 e'. simpl in Hty.
    rewrite (bare_association_has_no_editor e Hty (HK e Hi Hty)) in Hed.
    discriminate.
Qed.

Lemma run_associations (ops : list Op) (st st' : Editor) (used : list Z) :
  run st ops = JS.Normal st' ->
  NoDup (used ++ stamps ops) ->
  NoDup (map Edge.id (edges st)) /\ stamped used st ->
  (forall e, In e (edges st) ->
             Edge.type e = "association" -> Edge.data e = None) ->
  forall e, In e (edges st') ->
            Edge.type e = "association" -> Edge.data e = None.
Proof.
  revert st used.
  induction ops as [|op rest IH]; intros st used Hr Hu Hinv HK.
  - simpl in *. now injection Hr as <-.
  - simpl in Hr.
    destruct (step st op) as [st1|] eqn:Hs; simpl in Hr; [|discriminate].
    rewrite stamps_cons, app_assoc in Hu.
    apply (IH st1 _ Hr Hu).
    + apply (step_edge_ids st st1 op used Hs); [|exact Hinv].
      now apply NoDup_app_remove_r in Hu.
    + apply (step_associations st st1 op Hs); tauto.
Qed.

(** X10: in a session from the empty editor whose connections were made
    at different clock readings, an association edge carries no data and
    shows no label editor: no sequence of operations gives it a label. *)
Theorem associations_stay_unlabelled (ops : list Op) (st : Editor)
        (e : Edge.t) :
  run defaultEditor ops = JS.Normal st ->
  NoDup (stamps ops) ->
  In e (edges st) ->
  Edge.type e = "association" ->
  Edge.data e = None /\ Edge.label e = None /\ edgeLabelEditor e = None.
Proof.
  intros Hr Hu Hin Hty.
  assert (Hd : Edge.data e = None).
  { apply (run_associations ops defaultEditor st [] Hr Hu);
      try assumption.
    - split; constructor.
    - intros e0 []. }
  split; [exact Hd|]. split.
  - unfold Edge.label. now rewrite Hd.
  - now apply bare_association_has_no_editor.
Qed.

Lemma associations_stay_unlabelled_witness :
  exists st e,
    run defaultEditor Sample.tidy = JS.Normal st
    /\ In e (edges st)
    /\ Edge.type e = "association"
    /\ edgeLabelEditor e = None.
Proof.
  destruct (run_total Sample.tidy defaultEditor) as [st Hr].
  exists st, (newEdge "association" Sample.actorToUseCase Sample.noon).
  assert (Hin : In (newEdge "association" Sample.actorToUseCase Sample.noon)
                   (edges st)).
  { vm_compute in Hr. injection Hr as <-. left. reflexivity. }
  assert (Hu : NoDup (stamps Sample.tidy)).
  { vm_compute. constructor; [intros [H | []]; discriminate H|].
    constructor; [intros [] | constructor]. }
  split; [exact Hr|]. split; [exact Hin|]. split; [reflexivity|].
  apply (associations_stay_unlabelled Sample.tidy st _ Hr Hu Hin).
  reflexivity.
Defined.

Lemma trimEnd_head (c : ascii) (r : string) :
  JS.isWhiteSpace c = false ->
  JS.trimEnd (String c r) = String c (JS.trimEnd r).
Proof.
  intros H. simpl. now rewrite H.
Qed.

Lemma trimEnd_twice (s : string) : JS.trimEnd (JS.trimEnd s) = JS.trimEnd s.
Proof.
  induction s as [|c r IH]; simpl; [reflexivity|].
  destruct (JS.isWhiteSpace c && (JS.trimEnd r =? "")) eqn:E;
    [reflexivity|].
  simpl. now rewrite IH, E.
Qed.

Lemma trimStart_head (s : string) :
  JS.trimStart s = ""
  \/ exists c r, JS.trimStart s = String c r /\ JS.isWhiteSpace c = false.
Proof.
  induction s as [|c r IH]; simpl; [now left|].
  destruct (JS.isWhiteSpace c) eqn:E; [exact IH|].
  right. now exists c, r.
Qed.

Lemma trim_twice (s : string) : JS.trim (JS.trim s) = JS.trim s.
Proof.
  unfold JS.trim.
  destruct (trimStart_head s) as [-> | [c [r [-> Hc]]]]; [reflexivity|].
  rewrite (trimEnd_head c r Hc). simpl JS.trimStart. rewrite Hc.
  rewrite <- (trimEnd_head c r Hc). apply trimEnd_twice.
Qed.

Lemma trim_clean (s : string) : JS.trim s <> "" -> clean (JS.trim s) = true.
Proof.
  intros H. unfold clean, JS.truthy.
  apply String.eqb_neq in H. rewrite H, trim_twice. simpl.
  apply String.eqb_refl.
Qed.

Lemma cleanDrops_cons (op : Op) (rest : list Op) :
  cleanDrops (op :: rest) = cleanDrops [op] && cleanDrops rest.
Proof.
  destruct op; simpl; try reflexivity. now rewrite andb_true_r.
Qed.

Lemma onDrop_label (st : Editor) (event : DragEvent) :
  reactflow_type event <> "" ->
  exists n st',
    onDrop st event = JS.Normal st'
    /\ nodes st' = (nodes st ++ [n])%list
    /\ NodeData.label (Node.data n) = dropLabel event.
Proof.
  intros Hty. destruct (onDrop_node st event Hty) as [d [Hd Hl]].
  eexists. eexists. split; [exact Hd|]. simpl. split; [reflexivity|].
  subst d. unfold dropLabel.
  now destruct (reactflow_data event) as [|[l|]].
Qed.

Lemma step_clean (st st' : Editor) (op : Op) :
  step st op = JS.Normal st' ->
  cleanDrops [op] = true ->
  Forall (fun n => clean (NodeData.label (Node.data n)) = true) (nodes st) ->
  Forall (fun n => clean (NodeData.label (Node.data n)) = true) (nodes st').
Proof.
  intros Hs Hc Hall.
  destruct op; simpl in Hs.
  - destruct (string_dec (reactflow_type event) "") as [E|E].
    + rewrite (onDrop_no_type st event E) in Hs. now injection Hs as <-.
    + destruct (onDrop_label st event E) as [n [st1 [Ho [Hn Hl]]]].
      rewrite Ho in Hs. injection Hs as <-. rewrite Hn.
      apply Forall_app. split; [exact Hall|].
      constructor; [|constructor]. rewrite Hl.
      simpl in Hc. unfold JS.truthy in Hc at 1.
      apply String.eqb_neq in E. rewrite E in Hc. simpl in Hc.
      now rewrite andb_true_r in Hc.
  - now injection Hs as <-.
  - now injection Hs as <-.
  - injection Hs as <-. simpl. unfold ReactFlow.selectNode.
    apply Forall_map. eapply Forall_impl; [|exact Hall].
    intros n Hn. now destruct (Node.id n =? id).
  - now injection Hs as <-.
  - injection Hs as <-. simpl. apply Forall_forall. intros n Hin.
    apply filter_In in Hin. rewrite Forall_forall in Hall.
    now apply Hall.
  - destruct (nth_error (nodes st) i) as [n|]; injection Hs as <-;
      [|exact Hall].
    unfold EditableLabel_handleSave.
    destruct (JS.truthy (JS.trim editValue)) eqn:Et; simpl; [|exact Hall].
    destruct (negb (JS.trim editValue =? NodeData.label (Node.data n)));
      simpl; [|exact Hall].
    apply Forall_map. eapply Forall_impl; [|exact Hall].
    intros m Hm. destruct (Node.id m =? Node.id n); [|exact Hm].
    simpl. apply trim_clean. unfold JS.truthy in Et.
    apply negb_true_iff in Et. now apply String.eqb_neq.
  - destruct (nth_error (edges st) i) as [e|];
      [|now injection Hs as <-].
    destruct (edgeLabelEditor e) as [value|]; injection Hs as <-;
      [|exact Hall].
    now rewrite (proj1 (handleSave_edge_nodes (Edge.id e) value
                                              editValue st)).
Qed.

Lemma run_clean (ops : list Op) (st st' : Editor) :
  run st ops = JS.Normal st' ->
  cleanDrops ops = true ->
  Forall (fun n => clean (NodeData.label (Node.data n)) = true) (nodes st) ->
  Forall (fun n => clean (NodeData.label (Node.data n)) = true) (nodes st').
Proof.
  revert st. induction ops as [|op rest IH]; intros st Hr Hc Hall.
  - simpl in Hr. now injection Hr as <-.
  - simpl in Hr. rewrite cleanDrops_cons in Hc.
    apply andb_true_iff in Hc. destruct Hc as [Hop Hrest].
    destruct (step st op) as [st1|] eqn:Hs; simpl in Hr; [|discriminate].
    apply (IH st1 Hr Hrest). now apply (step_clean st st1 op).
Qed.

(** X11: when every drop of a session from the empty editor gives its
    node a clean label (not empty, no white space at either end), as the
    drops from the palette do, every node on the canvas has a clean label
    at every point of the session: no relabelling can empty a node's
    label or leave white space around it. *)
Theorem node_labels_stay_clean (ops : list Op) (st : Editor) :
  run defaultEditor ops = JS.Normal st ->
  cleanDrops ops = true ->
  Forall (fun n => NodeData.label (Node.data n) <> ""
                   /\ JS.trim (NodeData.label (Node.data n))
                      = NodeData.label (Node.data n))
         (nodes st).
Proof.
  intros Hr Hc.
  assert (H : Forall (fun n => clean (NodeData.label (Node.data n)) = true)
                     (nodes st)).
  { apply (run_clean ops defaultEditor st Hr Hc). constructor. }
  eapply Forall_impl; [|exact H].
  intros n Hn. unfold clean, JS.truthy in Hn.
  apply andb_true_iff in Hn. destruct Hn as [H1 H2].
  apply negb_true_iff, String.eqb_neq in H1.
  apply String.eqb_eq in H2. now split.
Qed.

Lemma node_labels_stay_clean_witness :
  cleanDrops
    [ Drop (dropAt (handleDragStart newDataTransfer
                      (ShapeDefinition.mk "usecase" "Use Case"
                         "System functionality or action"
                         Category.nodes (Some (Some "Use Case"))))
                   Sample.origin);
      RelabelNode 0 "  Pay   "; RelabelNode 0 "   " ] = true
  /\ exists st,
      run defaultEditor
          [ Drop (dropAt (handleDragStart newDataTransfer
                            (ShapeDefinition.mk "usecase" "Use Case"
                               "System functionality or action"
                               Category.nodes (Some (Some "Use Case"))))
                         Sample.origin);
            RelabelNode 0 "  Pay   "; RelabelNode 0 "   " ]
      = JS.Normal st
      /\ Forall (fun n => NodeData.label (Node.data n) <> ""
                          /\ JS.trim (NodeData.label (Node.data n))
                             = NodeData.label (Node.data n))
                (nodes st).
Proof.
  split; [reflexivity|].
  eexists. split; [reflexivity|].
  apply (node_labels_stay_clean
           [ Drop (dropAt (handleDragStart newDataTransfer
                             (ShapeDefinition.mk "usecase" "Use Case"
                                "System functionality or action"
                                Category.nodes (Some (Some "Use Case"))))
                          Sample.origin);
             RelabelNode 0 "  Pay   "; RelabelNode 0 "   " ]);
    reflexivity.
Defined.

Lemma handleSave_edge_again (edgeId value value' editValue : string)
      (st : Editor) :
  JS.trim editValue <> value ->
  EditableEdgeLabel_handleSave edgeId value' editValue
    (EditableEdgeLabel_handleSave edgeId value editValue st)
  = EditableEdgeLabel_handleSave edgeId value editValue st.
Proof.
  intros Hne. unfold EditableEdgeLabel_handleSave.
  apply String.eqb_neq in Hne. rewrite Hne. simpl.
  destruct (negb (JS.trim editValue =? value')); [|reflexivity].
  unfold setEdges. simpl. f_equal. rewrite map_map. apply map_ext.
  intros e. destruct (Edge.id e =? edgeId) eqn:E; simpl; now rewrite E.
Qed.

(** X12: committing the same text twice through a label editor does what
    committing it once does, for a node and for an edge: the second
    commit leaves the editor state as the first one left it. *)
Theorem relabel_twice (st st1 : Editor) (i : nat) (t : string) :
  (step st (RelabelNode i t) = JS.Normal st1 ->
   step st1 (RelabelNode i t) = JS.Normal st1)
  /\ (step st (RelabelEdge i t) = JS.Normal st1 ->
      step st1 (RelabelEdge i t) = JS.Normal st1).
Proof.
  split; simpl.
  - destruct (nth_error (nodes st) i) as [n|] eqn:Hi.
    + intros H. injection H as <-.
      destruct (string_dec (JS.trim t) "") as [E1 | E1];
        [rewrite (handleSave_node_same st _ _ t (or_introl E1)), Hi;
         now rewrite (handleSave_node_same st _ _ t (or_introl E1))|].
      destruct (string_dec (JS.trim t) (NodeData.label (Node.data n)))
        as [E2 | E2];
        [rewrite (handleSave_node_same st _ _ t (or_intror E2)), Hi;
         now rewrite (handleSave_node_same st _ _ t (or_intror E2))|].
      rewrite (handleSave_node_at st i n _ t Hi E1 E2). simpl.
      f_equal. apply handleSave_node_same. now right.
    + intros H. injection H as <-. now rewrite Hi.
  - destruct (nth_error (edges st) i) as [e|] eqn:Hi.
    + destruct (edgeLabelEditor e) as [value|] eqn:Hed.
      * intros H. injection H as <-.
        destruct (string_dec (JS.trim t) value) as [E | E];
          [rewrite (handleSave_edge_same st _ value t E), Hi, Hed;
           now rewrite (handleSave_edge_same st _ value t E)|].
        rewrite (handleSave_edge_at st i e value t Hi E).
        destruct (edgeLabelEditor (Edge.with_data e _)) as [value'|];
          [|reflexivity].
        f_equal. now apply handleSave_edge_again.
      * intros H. injection H as <-. now rewrite Hi, Hed.
    + intros H. injection H as <-. now rewrite Hi.
Qed.

Lemma relabel_twice_witness :
  exists st1,
    step Sample.twoNodes (RelabelNode 0 " New ") = JS.Normal st1
    /\ step st1 (RelabelNode 0 " New ") = JS.Normal st1.
Proof.
  destruct (step_total Sample.twoNodes (RelabelNode 0 " New "))
    as [st1 Hs].
  exists st1. split; [exact Hs|].
  exact (proj1 (relabel_twice Sample.twoNodes st1 0 " New ") Hs).
Defined.

Lemma EditableLabel_step (nodeId value : string) (event : LabelEvent)
      (ui : LabelEditor.t) (st : Editor) :
  snd (EditableLabel nodeId value event (ui, st)) = st
  \/ snd (EditableLabel nodeId value event (ui, st))
     = EditableLabel_handleSave nodeId value (LabelEditor.editValue ui) st.
Proof.
  destruct event as [|text|[]|]; simpl;
    destruct (LabelEditor.isEditing ui); simpl; tauto.
Qed.

Lemma handleSave_node_cleans (nodeId value editValue : string) (st : Editor)
      (j : nat) (m' : Node.t) :
  nth_error (nodes (EditableLabel_handleSave nodeId value editValue st)) j
  = Some m' ->
  nth_error (nodes st) j = Some m'
  \/ clean (NodeData.label (Node.data m')) = true.
Proof.
  unfold EditableLabel_handleSave.
  destruct (JS.truthy (JS.trim editValue)) eqn:Et; simpl; [|tauto].
  destruct (negb (JS.trim editValue =? value)); simpl; [|tauto].
  rewrite nth_error_map.
  destruct (nth_error (nodes st) j) as [m|]; simpl; [|discriminate].
  destruct (Node.id m =? nodeId); intros H; injection H as <-; [|tauto].
  right. simpl. apply trim_clean.
  unfold JS.truthy in Et. apply negb_true_iff in Et.
  now apply String.eqb_neq.
Qed.

Lemma editLabel_frame (nodeId : string) (events : list LabelEvent)
      (ui : LabelEditor.t) (st : Editor) :
  edges (snd (editLabel nodeId events (ui, st))) = edges st
  /\ selectedEdgeType (snd (editLabel nodeId events (ui, st)))
     = selectedEdgeType st
  /\ nodeIdCounter (snd (editLabel nodeId events (ui, st)))
     = nodeIdCounter st
  /\ map nodeKey (nodes (snd (editLabel nodeId events (ui, st))))
     = map nodeKey (nodes st)
  /\ (forall j m,
         nth_error (nodes st) j = Some m ->
         Node.id m <> nodeId ->
         nth_error (nodes (snd (editLabel nodeId events (ui, st)))) j
         = Some m)
  /\ (forall j m',
         nth_error (nodes (snd (editLabel nodeId events (ui, st)))) j
         = Some m' ->
         nth_error (nodes st) j = Some m'
         \/ clean (NodeData.label (Node.data m')) = true).
Proof.
  revert ui st.
  induction events as [|event rest IH]; intros ui st.
  - simpl. repeat split; tauto.
  - cbn [editLabel snd].
    destruct (findNode (nodes st) nodeId) as [n|] eqn:Hfind;
      [|simpl; repeat split; tauto].
    destruct (EditableLabel nodeId (NodeData.label (Node.data n)) event
                            (ui, st)) as [ui1 st1] eqn:Hstep.
    destruct (IH ui1 st1) as [H1 [H2 [H3 [H4 [H5 H6]]]]].
    assert (Hst1 : st1 = st
                   \/ st1 = EditableLabel_handleSave
                              nodeId (NodeData.label (Node.data n))
                              (LabelEditor.editValue ui) st).
    { pose proof (EditableLabel_step nodeId (NodeData.label (Node.data n))
                                     event ui st) as H.
      now rewrite Hstep in H. }
    destruct Hst1 as [-> | ->];
      [repeat split; assumption|].
    destruct (handleSave_node_keys
                nodeId (NodeData.label (Node.data n))
                (LabelEditor.editValue ui) st) as [K1 [K2 K3]].
    split; [now rewrite H1|].
    split; [rewrite H2; unfold EditableLabel_handleSave;
            now destruct (_ && _)|].
    split; [now rewrite H3|].
    split; [now rewrite H4|].
    split.
    + intros j m Hj Hne. apply H5; [|exact Hne].
      now apply handleSave_node_others.
    + intros j m' Hj. destruct (H6 j m' Hj) as [Hsame | Hclean];
        [|now right].
      now apply handleSave_node_cleans in Hsame.
Qed.

(** X13: whatever is done to the label editor of a node (double clicks,
    typing, keys, blur, in any order): the edges, the edge type of the
    sidebar and the id counter stay as they are, every node keeps its
    place, id and type, a node with another id keeps its label, and a
    node of the editor's id is either as it was or has a clean label
    (not empty, no white space at either end).  Typing and then pressing
    Escape changes nothing and resets the box to the label. *)
Theorem label_editor_changes_one_label (nodeId : string)
        (events : list LabelEvent) (ui : LabelEditor.t) (st : Editor) :
  let st' := snd (editLabel nodeId events (ui, st)) in
  edges st' = edges st
  /\ selectedEdgeType st' = selectedEdgeType st
  /\ nodeIdCounter st' = nodeIdCounter st
  /\ map nodeKey (nodes st') = map nodeKey (nodes st)
  /\ (forall j m,
         nth_error (nodes st) j = Some m ->
         Node.id m <> nodeId ->
         nth_error (nodes st') j = Some m)
  /\ (forall j m',
         nth_error (nodes st') j = Some m' ->
         nth_error (nodes st) j = Some m'
         \/ clean (NodeData.label (Node.data m')) = true)
  /\ (forall n t,
         findNode (nodes st) nodeId = Some n ->
         editLabel nodeId [DoubleClick; Change t; KeyDown Escape]
                   (LabelEditor.mk false (LabelEditor.editValue ui), st)
         = (LabelEditor.mk false (NodeData.label (Node.data n)), st)).
Proof.
  cbv zeta.
  destruct (editLabel_frame nodeId events ui st)
    as [H1 [H2 [H3 [H4 [H5 H6]]]]].
  repeat (split; [assumption|]).
  intros n t Hn. simpl. now rewrite Hn.
Qed.

Lemma label_editor_changes_one_label_witness :
  snd (editLabel "node_1"
                 [DoubleClick; Change "  Customer "; Blur;
                  DoubleClick; Change "   "; KeyDown Enter]
                 (LabelEditor.mk false "Actor", Sample.twoNodes))
  = setNodes (map (fun n => if Node.id n =? "node_1"
                            then Node.with_label n "Customer" else n))
             Sample.twoNodes
  /\ editLabel "node_1" [DoubleClick; Change "x"; KeyDown Escape]
               (LabelEditor.mk false "Actor", Sample.twoNodes)
     = (LabelEditor.mk false "Actor", Sample.twoNodes).
Proof.
  split; [reflexivity|].
  destruct (label_editor_changes_one_label
              "node_1" [] (LabelEditor.mk false "Actor") Sample.twoNodes)
    as [_ [_ [_ [_ [_ [_ H]]]]]].
  apply (H (Node.mk "node_1" "actor" Sample.origin
                    (NodeData.mk "Actor") false) "x").
  reflexivity.
Defined.

(* ====================================================================== *)
(** ** The Clerk webhook *)
(* ====================================================================== *)

(** X14: the full name stored for a user is absent exactly when both
    names are absent or empty; with one name it is that name, without a
    blank before or after it; with both it is the two names with one
    blank between them. *)
Theorem fullName_joins_the_names (data : Webhook.UserData.t) :
  let first := Webhook.UserData.first_name data in
  let last := Webhook.UserData.last_name data in
  (Webhook.fullName data = None
   <-> Webhook.falsy first = true /\ Webhook.falsy last = true)
  /\ (forall f,
         first = Some f -> f <> "" -> Webhook.falsy last = true ->
         Webhook.fullName data = Some f)
  /\ (forall l,
         Webhook.falsy first = true -> last = Some l -> l <> "" ->
         Webhook.fullName data = Some l)
  /\ (forall f l,
         first = Some f -> f <> "" -> last = Some l -> l <> "" ->
         Webhook.fullName data = Some (f ++ " " ++ l)).
Proof.
  unfold Webhook.fullName. simpl.
  destruct (Webhook.UserData.first_name data) as [[|c r]|];
    destruct (Webhook.UserData.last_name data) as [[|c' r']|];
    simpl; repeat split; try tauto; try discriminate;
    try (intros; congruence);
    try (intros [? ?]; discriminate).
  intros f l Hf _ Hl _. injection Hf as <-. injection Hl as <-.
  reflexivity.
Qed.

Lemma fullName_joins_the_names_witness :
  Webhook.fullName
    (Webhook.UserData.mk "user_1" (Some []) None (Some "Ada")
                         (Some "Lovelace") None)
  = Some "Ada Lovelace"
  /\ Webhook.fullName
       (Webhook.UserData.mk "user_1" (Some []) None None
                            (Some "Lovelace") None)
     = Some "Lovelace".
Proof.
  split.
  - destruct (fullName_joins_the_names
                (Webhook.UserData.mk "user_1" (Some []) None (Some "Ada")
                                     (Some "Lovelace") None))
      as [_ [_ [_ H]]].
    apply (H "Ada" "Lovelace"); (reflexivity || discriminate).
  - destruct (fullName_joins_the_names
                (Webhook.UserData.mk "user_1" (Some []) None None
                                     (Some "Lovelace") None))
      as [_ [_ [H _]]].
    apply (H "Lovelace"); (reflexivity || discriminate).
Defined.

Lemma existsb_eqb_false {A} (g : A -> string) (x : string) (l : list A) :
  existsb (fun a => g a =? x) l = false -> ~ In x (map g l).
Proof.
  intros H Hin. apply in_map_iff in Hin. destruct Hin as [a [Ha Hin]].
  assert (Ht : existsb (fun a => g a =? x) l = true).
  { apply existsb_exists. exists a. split; [exact Hin|].
    subst x. apply String.eqb_refl. }
  congruence.
Qed.

Lemma existsb_eqb_true {A} (g : A -> string) (x : string) (l : list A) :
  In x (map g l) -> existsb (fun a => g a =? x) l = true.
Proof.
  intros Hin. apply in_map_iff in Hin. destruct Hin as [a [Ha Hin]].
  apply existsb_exists. exists a. split; [exact Hin|].
  subst x. apply String.eqb_refl.
Qed.

Lemma user_create_ok (env : Webhook.Env) (clerkId email : string)
      (fullName avatarUrl : option string) (db db' : Webhook.DB) :
  Webhook.user_create env clerkId email fullName avatarUrl db
  = Webhook.Ok db' ->
  db' = {| Webhook.users :=
             Webhook.users db ++
             [ Webhook.User.mk (Webhook.newId env) clerkId email fullName
                               avatarUrl (Webhook.clock env)
                               (Webhook.clock env) ];
           Webhook.diagrams := Webhook.diagrams db;
           Webhook.messages := Webhook.messages db |}
  /\ ~ In (Webhook.newId env) (map Webhook.User.id (Webhook.users db))
  /\ ~ In clerkId (map Webhook.User.clerkId (Webhook.users db))
  /\ ~ In email (map Webhook.User.email (Webhook.users db)).
Proof.
  unfold Webhook.user_create.
  destruct (existsb (fun u => Webhook.User.id u =? Webhook.newId env)
                    (Webhook.users db)) eqn:E1; [discriminate|].
  destruct (existsb (fun u => Webhook.User.clerkId u =? clerkId)
                    (Webhook.users db)) eqn:E2; [discriminate|].
  destruct (existsb (fun u => Webhook.User.email u =? email)
                    (Webhook.users db)) eqn:E3; [discriminate|].
  simpl. intros H. injection H as <-.
  split; [reflexivity|].
  split; [now apply existsb_eqb_false|].
  split; now apply existsb_eqb_false.
Qed.

Lemma POST_created (env : Webhook.Env) (data : Webhook.UserData.t)
      (db db' : Webhook.DB) (response : Webhook.Response) :
  Webhook.POST env (Webhook.Payload "user.created" (Some data)) db
  = (response, db') ->
  Webhook.status response = 200%nat ->
  exists primary,
    Webhook.primaryEmail data = Webhook.Ok primary
    /\ Webhook.user_create
         env (Webhook.UserData.id data)
         (match primary with Some e => e | None => "" end)
         (Webhook.fullName data) (Webhook.UserData.image_url data) db
       = Webhook.Ok db'.
Proof.
  unfold Webhook.POST, Webhook.handle.
  destruct (Webhook.primaryEmail data) as [primary|]; simpl.
  - destruct (Webhook.user_create _ _ _ _ _ _) as [db1|] eqn:Hc;
      intros H; injection H as <- <-; [|discriminate].
    intros _. now exists primary.
  - intros H. injection H as <- <-. discriminate.
Qed.

Lemma POST_created_taken (env : Webhook.Env) (data : Webhook.UserData.t)
      (db : Webhook.DB) :
  In (Webhook.UserData.id data)
     (map Webhook.User.clerkId (Webhook.users db)) ->
  Webhook.POST env (Webhook.Payload "user.created" (Some data)) db
  = (Webhook.failed, db).
Proof.
  intros Hin. unfold Webhook.POST, Webhook.handle.
  destruct (Webhook.primaryEmail data) as [primary|]; simpl;
    [|reflexivity].
  unfold Webhook.user_create.
  rewrite (existsb_eqb_true Webhook.User.clerkId _ _ Hin).
  now rewrite orb_true_r.
Qed.

(** X15: a user is created once.  After a [user.created] event was
    answered with 200 the table holds one more row, with the sender's
    user id as [clerkId]; every further [user.created] event for that
    user id, whatever else it carries, is answered with 500 and leaves
    the tables as they are. *)
Theorem user_is_created_once (env env' : Webhook.Env)
        (data data' : Webhook.UserData.t) (db db' : Webhook.DB)
        (response : Webhook.Response) :
  Webhook.POST env (Webhook.Payload "user.created" (Some data)) db
  = (response, db') ->
  Webhook.status response = 200%nat ->
  Webhook.UserData.id data' = Webhook.UserData.id data ->
  (exists u,
      Webhook.users db' = (Webhook.users db ++ [u])%list
      /\ Webhook.User.clerkId u = Webhook.UserData.id data
      /\ Webhook.User.fullName u = Webhook.fullName data
      /\ Webhook.User.avatarUrl u = Webhook.UserData.image_url data)
  /\ Webhook.POST env' (Webhook.Payload "user.created" (Some data')) db'
     = (Webhook.failed, db').
Proof.
  intros H Hst Hid.
  destruct (POST_created env data db db' response H Hst)
    as [primary [_ Hc]].
  apply user_create_ok in Hc. destruct Hc as [-> _]. split.
  - eexists. split; [reflexivity|]. simpl. repeat split.
  - apply POST_created_taken. simpl. rewrite map_app, in_app_iff.
    right. left. now symmetry.
Qed.

Lemma user_is_created_once_witness :
  Webhook.POST WebhookSample.env
               (Webhook.Payload "user.created" (Some WebhookSample.ada))
               WebhookSample.noTables
  = (Webhook.succeeded, WebhookSample.onlyAda)
  /\ Webhook.POST WebhookSample.later
                  (Webhook.Payload "user.created" (Some WebhookSample.ada))
                  WebhookSample.onlyAda
     = (Webhook.failed, WebhookSample.onlyAda).
Proof.
  split; [reflexivity|].
  exact (proj2 (user_is_created_once
                  WebhookSample.env WebhookSample.later
                  WebhookSample.ada WebhookSample.ada
                  WebhookSample.noTables WebhookSample.onlyAda
                  Webhook.succeeded eq_refl eq_refl eq_refl)).
Defined.

(** X16: a body that is not JSON, a payload without [data], and a
    payload whose [data] has no [email_addresses] are answered with 500
    and change no table, whatever the event type: the addresses are read
    before the type is looked at.  So a [user.deleted] event that
    carries the user id alone leaves the user in the table. *)
Theorem payload_without_addresses_fails (env : Webhook.Env) (type : string)
        (data : Webhook.UserData.t) (db : Webhook.DB) :
  Webhook.POST env Webhook.NotJson db = (Webhook.failed, db)
  /\ Webhook.POST env (Webhook.Payload type None) db = (Webhook.failed, db)
  /\ (Webhook.UserData.email_addresses data = None ->
      Webhook.POST env (Webhook.Payload type (Some data)) db
      = (Webhook.failed, db))
  /\ (Webhook.UserData.email_addresses data = None ->
      forall u,
        In u (Webhook.users db) ->
        Webhook.User.clerkId u = Webhook.UserData.id data ->
        In u (Webhook.users
                (snd (Webhook.POST
                        env (Webhook.Payload "user.deleted" (Some data))
                        db)))).
Proof.
  assert (H : Webhook.UserData.email_addresses data = None ->
              forall type',
                Webhook.POST env (Webhook.Payload type' (Some data)) db
                = (Webhook.failed, db)).
  { intros Hnone type'. unfold Webhook.POST, Webhook.handle,
      Webhook.primaryEmail. now rewrite Hnone. }
  repeat split.
  - intros Hnone. now apply H.
  - intros Hnone u Hin _. now rewrite (H Hnone).
Qed.

Lemma payload_without_addresses_fails_witness :
  Webhook.POST WebhookSample.later
               (Webhook.Payload "user.deleted" (Some WebhookSample.adaGone))
               WebhookSample.withAda
  = (Webhook.failed, WebhookSample.withAda).
Proof.
  apply (payload_without_addresses_fails
           WebhookSample.later "user.deleted" WebhookSample.adaGone).
  reflexivity.
Defined.

Lemma falsy_email (primary : option string) :
  Webhook.falsy primary = true ->
  match primary with Some e => e | None => "" end = ""
  /\ match primary with
     | Some e => if JS.truthy e then Some e else None
     | None => None
     end = None.
Proof.
  destruct primary as [e|]; simpl; [|tauto].
  unfold JS.truthy. rewrite negb_involutive. intros H.
  rewrite H. simpl. apply String.eqb_eq in H. now subst e.
Qed.

(** X17: only one user without a primary e-mail address fits in the
    table.  Such a user is stored with the empty string as address, so
    once a [user.created] event without a primary address was answered
    with 200, every further one, for whatever user, is answered with 500
    and stores nothing. *)
Theorem one_user_without_address (env env' : Webhook.Env)
        (data data' : Webhook.UserData.t) (primary primary' : option string)
        (db db' : Webhook.DB) (response : Webhook.Response) :
  Webhook.primaryEmail data = Webhook.Ok primary ->
  Webhook.falsy primary = true ->
  Webhook.primaryEmail data' = Webhook.Ok primary' ->
  Webhook.falsy primary' = true ->
  Webhook.POST env (Webhook.Payload "user.created" (Some data)) db
  = (response, db') ->
  Webhook.status response = 200%nat ->
  In "" (map Webhook.User.email (Webhook.users db'))
  /\ Webhook.POST env' (Webhook.Payload "user.created" (Some data')) db'
     = (Webhook.failed, db').
Proof.
  intros Hp Hf Hp' Hf' H Hst.
  destruct (POST_created env data db db' response H Hst) as [p [Hp2 Hc]].
  rewrite Hp in Hp2. injection Hp2 as <-.
  rewrite (proj1 (falsy_email primary Hf)) in Hc.
  apply user_create_ok in Hc. destruct Hc as [-> _].
  assert (Hin : In "" (map Webhook.User.email
                           (Webhook.users db ++
                            [Webhook.User.mk
                               (Webhook.newId env) (Webhook.UserData.id data)
                               "" (Webhook.fullName data)
                               (Webhook.UserData.image_url data)
                               (Webhook.clock env) (Webhook.clock env)]))).
  { rewrite map_app, in_app_iff. right. now left. }
  split; [exact Hin|].
  unfold Webhook.POST, Webhook.handle. rewrite Hp'. simpl.
  rewrite (proj1 (falsy_email primary' Hf')).
  unfold Webhook.user_create. simpl Webhook.users.
  rewrite (existsb_eqb_true Webhook.User.email _ _ Hin).
  now rewrite orb_true_r.
Qed.

Lemma one_user_without_address_witness :
  exists db',
    Webhook.POST WebhookSample.env
                 (Webhook.Payload "user.created" (Some WebhookSample.bob))
                 WebhookSample.noTables
    = (Webhook.succeeded, db')
    /\ Webhook.POST WebhookSample.later
                    (Webhook.Payload "user.created" (Some WebhookSample.eve))
                    db'
       = (Webhook.failed, db').
Proof.
  eexists. split; [reflexivity|].
  exact (proj2 (one_user_without_address
                  WebhookSample.env WebhookSample.later
                  WebhookSample.bob WebhookSample.eve None None
                  WebhookSample.noTables _
                  Webhook.succeeded eq_refl eq_refl eq_refl eq_refl
                  eq_refl eq_refl)).
Defined.

Lemma find_clerkId (clerkId : string) (l : list Webhook.User.t) :
  In clerkId (map Webhook.User.clerkId l) ->
  exists u,
    find (fun u => Webhook.User.clerkId u =? clerkId) l = Some u
    /\ In u l /\ Webhook.User.clerkId u = clerkId.
Proof.
  intros Hin.
  destruct (find (fun u => Webhook.User.clerkId u =? clerkId) l)
    as [u|] eqn:E.
  - exists u. apply find_some in E. destruct E as [H1 H2].
    apply String.eqb_eq in H2. tauto.
  - exfalso. apply in_map_iff in Hin. destruct Hin as [u [Hu Hin]].
    apply (find_none _ _ E) in Hin. subst clerkId.
    now rewrite String.eqb_refl in Hin.
Qed.

(** X18: a [user.updated] event without a primary e-mail address, for a
    user in the table, is answered with 200 and keeps the stored address
    (where the creation would store the empty string): the user's row
    takes the new full name and avatar and the time of the update, every
    column of every other row, and every diagram and message, stays as it
    is. *)
Theorem update_without_address_keeps_email (env : Webhook.Env)
        (data : Webhook.UserData.t) (primary : option string)
        (db : Webhook.DB) :
  Webhook.primaryEmail data = Webhook.Ok primary ->
  Webhook.falsy primary = true ->
  In (Webhook.UserData.id data)
     (map Webhook.User.clerkId (Webhook.users db)) ->
  exists db',
    Webhook.POST env (Webhook.Payload "user.updated" (Some data)) db
    = (Webhook.succeeded, db')
    /\ map Webhook.User.email (Webhook.users db')
       = map Webhook.User.email (Webhook.users db)
    /\ map Webhook.User.id (Webhook.users db')
       = map Webhook.User.id (Webhook.users db)
    /\ map Webhook.User.clerkId (Webhook.users db')
       = map Webhook.User.clerkId (Webhook.users db)
    /\ Webhook.diagrams db' = Webhook.diagrams db
    /\ Webhook.messages db' = Webhook.messages db
    /\ (forall v,
           In v (Webhook.users db') ->
           Webhook.User.clerkId v = Webhook.UserData.id data ->
           Webhook.User.fullName v = Webhook.fullName data
           /\ Webhook.User.avatarUrl v = Webhook.UserData.image_url data
           /\ Webhook.User.updatedAt v = Webhook.clock env)
    /\ (forall v,
           In v (Webhook.users db) ->
           Webhook.User.clerkId v <> Webhook.UserData.id data ->
           In v (Webhook.users db')).
Proof.
  intros Hp Hf Hin.
  destruct (find_clerkId _ _ Hin) as [u [Hfind [Hu Hcu]]].
  unfold Webhook.POST, Webhook.handle. rewrite Hp. simpl.
  rewrite (proj2 (falsy_email primary Hf)).
  unfold Webhook.user_update. rewrite Hfind.
  eexists. split; [reflexivity|]. simpl.
  split; [apply map_map_keep; intros v;
          now destruct (Webhook.User.clerkId v =? Webhook.UserData.id data)|].
  split; [apply map_map_keep; intros v;
          now destruct (Webhook.User.clerkId v =? Webhook.UserData.id data)|].
  split; [apply map_map_keep; intros v;
          now destruct (Webhook.User.clerkId v =? Webhook.UserData.id data)|].
  split; [reflexivity|]. split; [reflexivity|]. split.
  - intros v' Hv' Hc. apply in_map_iff in Hv'.
    destruct Hv' as [v [Hv Hinv]].
    destruct (Webhook.User.clerkId v =? Webhook.UserData.id data) eqn:E.
    + subst v'. simpl. repeat split.
    + subst v'. apply String.eqb_neq in E. contradiction.
  - intros v Hv Hne. apply in_map_iff. exists v. split; [|exact Hv].
    apply String.eqb_neq in Hne. now rewrite Hne.
Qed.

Lemma update_without_address_keeps_email_witness :
  exists db',
    Webhook.POST WebhookSample.later
                 (Webhook.Payload "user.updated"
                                  (Some WebhookSample.adaRenamed))
                 WebhookSample.onlyAda
    = (Webhook.succeeded, db')
    /\ map Webhook.User.email (Webhook.users db') = ["ada@example.org"]
    /\ map Webhook.User.fullName (Webhook.users db') = [Some "Ada"].
Proof.
  destruct (update_without_address_keeps_email
              WebhookSample.later WebhookSample.adaRenamed None
              WebhookSample.onlyAda eq_refl eq_refl
              (or_introl eq_refl))
    as [db' [H1 [H2 _]]].
  exists db'. split; [exact H1|]. split; [exact H2|].
  injection H1 as <-. reflexivity.
Defined.

Lemma filter_all {A} (f : A -> bool) (l : list A) :
  (forall a, In a l -> f a = true) -> filter f l = l.
Proof.
  induction l as [|a r IH]; simpl; intros H; [reflexivity|].
  rewrite (H a (or_introl eq_refl)). f_equal. apply IH.
  intros b Hb. apply H. now right.
Qed.

Lemma create_constraints (env : Webhook.Env) (clerkId email : string)
      (fullName avatarUrl : option string) (db db' : Webhook.DB) :
  Webhook.constraints db ->
  Webhook.user_create env clerkId email fullName avatarUrl db
  = Webhook.Ok db' ->
  Webhook.constraints db'.
Proof.
  intros [H1 [H2 [H3 [H4 [H5 [H6 H7]]]]]] Hc.
  apply user_create_ok in Hc. destruct Hc as [-> [N1 [N2 N3]]].
  unfold Webhook.constraints. simpl. rewrite !map_app. simpl.
  repeat split; try assumption; try (now apply NoDup_snoc).
  intros d Hd. apply in_app_iff. left. now apply H6.
Qed.

Lemma update_emails (clerkId e : string)
      (upd : Webhook.User.t -> Webhook.User.t) (l : list Webhook.User.t) :
  (forall v, Webhook.User.clerkId v = clerkId ->
             Webhook.User.email (upd v) = e) ->
  (forall v, Webhook.User.clerkId v <> clerkId -> upd v = v) ->
  NoDup (map Webhook.User.clerkId l) ->
  NoDup (map Webhook.User.email l) ->
  (forall v, In v l -> Webhook.User.email v = e ->
             Webhook.User.clerkId v = clerkId) ->
  NoDup (map Webhook.User.email (map upd l)).
Proof.
  intros Hhit Hmiss. induction l as [|a r IH]; simpl; intros Hid Hem He;
    [constructor|].
  inversion Hid as [|? ? Na Hid']; subst.
  inversion Hem as [|? ? Ma Hem']; subst.
  destruct (string_dec (Webhook.User.clerkId a) clerkId) as [E|E].
  - assert (Hr : map upd r = r).
    { rewrite <- (map_id r) at 2. apply map_ext_in. intros v Hv.
      apply Hmiss. intros Hvu. apply Na. rewrite E, <- Hvu.
      now apply in_map. }
    rewrite Hr, (Hhit a E). constructor; [|exact Hem'].
    intros Hin. apply in_map_iff in Hin. destruct Hin as [v [Hv Hin]].
    apply Na. rewrite E, <- (He v (or_intror Hin) Hv). now apply in_map.
  - rewrite (Hmiss a E). constructor.
    + intros Hin. apply in_map_iff in Hin. destruct Hin as [v' [Hv' Hin]].
      apply in_map_iff in Hin. destruct Hin as [v [Hv Hin]]. subst v'.
      destruct (string_dec (Webhook.User.clerkId v) clerkId) as [Ev|Ev].
      * rewrite (Hhit v Ev) in Hv'. apply E.
        apply (He a (or_introl eq_refl)). now symmetry.
      * rewrite (Hmiss v Ev) in Hv'. apply Ma. rewrite <- Hv'.
        now apply in_map.
    + apply IH; try assumption. intros v Hv. apply He. now right.
Qed.

Lemma update_constraints (env : Webhook.Env) (clerkId : string)
      (email fullName avatarUrl : option string) (db db' : Webhook.DB) :
  Webhook.constraints db ->
  Webhook.user_update env clerkId email fullName avatarUrl db
  = Webhook.Ok db' ->
  Webhook.constraints db'.
Proof.
  intros [H1 [H2 [H3 [H4 [H5 [H6 H7]]]]]]. unfold Webhook.user_update.
  destruct (find (fun u => Webhook.User.clerkId u =? clerkId)
                 (Webhook.users db)) as [u|]; [|discriminate].
  destruct (match email with
            | Some e => existsb _ (Webhook.users db)
            | None => false
            end) eqn:Et; [discriminate|].
  intros H. injection H as <-.
  assert (Kid : forall l,
             map Webhook.User.id
               (map (fun v =>
                       if Webhook.User.clerkId v =? clerkId
                       then Webhook.User.mk
                              (Webhook.User.id v) (Webhook.User.clerkId v)
                              match email with
                              | Some e => e
                              | None => Webhook.User.email v
                              end fullName avatarUrl
                              (Webhook.User.createdAt v) (Webhook.clock env)
                       else v) l)
             = map Webhook.User.id l).
  { intros l. apply map_map_keep. intros v.
    now destruct (Webhook.User.clerkId v =? clerkId). }
  unfold Webhook.constraints. simpl. rewrite Kid.
  repeat split; try assumption.
  - rewrite map_map_keep; [exact H2|]. intros v.
    now destruct (Webhook.User.clerkId v =? clerkId).
  - destruct email as [e|].
    + apply (update_emails clerkId e); try assumption.
      * intros v Hv. apply String.eqb_eq in Hv. now rewrite Hv.
      * intros v Hv. apply String.eqb_neq in Hv. now rewrite Hv.
      * intros v Hv Hem.
        destruct (string_dec (Webhook.User.clerkId v) clerkId)
          as [E|E]; [exact E|].
        exfalso. apply String.eqb_neq in E.
        assert (Ht : existsb
                       (fun v => (Webhook.User.email v =? e)
                                 && negb (Webhook.User.clerkId v
                                          =? clerkId))
                       (Webhook.users db) = true).
        { apply existsb_exists. exists v. split; [exact Hv|].
          apply String.eqb_eq in Hem. now rewrite Hem, E. }
        congruence.
    + rewrite map_map_keep; [exact H3|]. intros v.
      now destruct (Webhook.User.clerkId v =? clerkId).
Qed.

Lemma delete_constraints (clerkId : string) (db db' : Webhook.DB) :
  Webhook.constraints db ->
  Webhook.user_delete clerkId db = Webhook.Ok db' ->
  Webhook.constraints db'.
Proof.
  intros [H1 [H2 [H3 [H4 [H5 [H6 H7]]]]]]. unfold Webhook.user_delete.
  destruct (find (fun u => Webhook.User.clerkId u =? clerkId)
                 (Webhook.users db)) as [u|] eqn:Hfind; [|discriminate].
  apply find_some in Hfind. destruct Hfind as [Hu Hcu].
  apply String.eqb_eq in Hcu.
  intros H. injection H as <-.
  unfold Webhook.constraints. simpl.
  repeat split; try (now apply NoDup_map_filter).
  - intros d Hd. apply filter_In in Hd. destruct Hd as [Hd Hkeep].
    specialize (H6 d Hd). apply in_map_iff in H6.
    destruct H6 as [v [Hv Hin]]. apply in_map_iff. exists v.
    split; [exact Hv|]. apply filter_In. split; [exact Hin|].
    apply negb_true_iff, String.eqb_neq. intros Hc.
    assert (v = u).
    { apply (NoDup_map_same Webhook.User.clerkId (Webhook.users db));
        try assumption. congruence. }
    subst v. rewrite Hv, String.eqb_refl in Hkeep. discriminate.
  - intros m Hm. apply filter_In in Hm. destruct Hm as [Hm Hkeep].
    specialize (H7 m Hm). apply in_map_iff in H7.
    destruct H7 as [d [Hd Hin]]. apply in_map_iff. exists d.
    split; [exact Hd|]. apply filter_In. split; [exact Hin|].
    apply negb_true_iff in Hkeep.
    destruct (Webhook.Diagram.userId d =? Webhook.User.id u) eqn:E;
      [|reflexivity].
    exfalso.
    assert (Ht : existsb
                   (fun d => (Webhook.Diagram.userId d =? Webhook.User.id u)
                             && (Webhook.Diagram.id d
                                 =? Webhook.Message.diagramId m))
                   (Webhook.diagrams db) = true).
    { apply existsb_exists. exists d. split; [exact Hin|].
      rewrite E, Hd. simpl. apply String.eqb_refl. }
    congruence.
Qed.

(** X19: the handler keeps the tables within the constraints of the
    migration, whatever it is sent: ids, [clerkId]s and e-mail addresses
    stay unique, every diagram belongs to a user in the table and every
    message to a diagram in the table, also after a deletion, which
    takes the user's diagrams and their messages along. *)
Theorem webhook_keeps_constraints (env : Webhook.Env)
        (request : Webhook.Body) (db : Webhook.DB) :
  Webhook.constraints db ->
  Webhook.constraints (snd (Webhook.POST env request db)).
Proof.
  intros Hc. unfold Webhook.POST.
  destruct (Webhook.handle env request db) as [db'|] eqn:Hh;
    [|exact Hc].
  simpl. unfold Webhook.handle in Hh.
  destruct request as [|type [data|]]; try discriminate.
  destruct (Webhook.primaryEmail data) as [primary|]; [|discriminate].
  simpl in Hh.
  destruct (type =? "user.created");
    [now apply (create_constraints _ _ _ _ _ _ _ Hc Hh)|].
  destruct (type =? "user.updated");
    [now apply (update_constraints _ _ _ _ _ _ _ Hc Hh)|].
  destruct (type =? "user.deleted");
    [now apply (delete_constraints _ _ _ Hc Hh)|].
  now injection Hh as <-.
Qed.

Lemma webhook_keeps_constraints_witness :
  Webhook.constraints WebhookSample.withAda
  /\ Webhook.constraints
       (snd (Webhook.POST WebhookSample.later
                          (Webhook.Payload "user.deleted"
                                           (Some WebhookSample.ada))
                          WebhookSample.withAda))
  /\ snd (Webhook.POST WebhookSample.later
                       (Webhook.Payload "user.deleted"
                                        (Some WebhookSample.ada))
                       WebhookSample.withAda)
     = WebhookSample.noTables.
Proof.
  assert (Hc : Webhook.constraints WebhookSample.withAda).
  { unfold Webhook.constraints. simpl.
    repeat split; try (repeat constructor; simpl; tauto).
    - intros d [<- | []]. now left.
    - intros m [<- | []]. now left. }
  split; [exact Hc|]. split; [|reflexivity].
  now apply webhook_keeps_constraints.
Defined.

(** X20: a deletion undoes a creation.  When the tables satisfy the
    constraints and a [user.created] event was answered with 200, a
    [user.deleted] event for the same user id that carries its
    [email_addresses] is answered with 200 and leaves the tables exactly
    as they were before the creation. *)
Theorem delete_undoes_create (env env' : Webhook.Env)
        (data data' : Webhook.UserData.t) (primary' : option string)
        (db db' : Webhook.DB) (response : Webhook.Response) :
  Webhook.constraints db ->
  Webhook.POST env (Webhook.Payload "user.created" (Some data)) db
  = (response, db') ->
  Webhook.status response = 200%nat ->
  Webhook.UserData.id data' = Webhook.UserData.id data ->
  Webhook.primaryEmail data' = Webhook.Ok primary' ->
  Webhook.POST env' (Webhook.Payload "user.deleted" (Some data')) db'
  = (Webhook.succeeded, db).
Proof.
  intros [_ [_ [_ [_ [_ [H6 _]]]]]] H Hst Hid Hp'.
  destruct (POST_created env data db db' response H Hst)
    as [primary [_ Hc]].
  apply user_create_ok in Hc. destruct Hc as [-> [N1 [N2 _]]].
  unfold Webhook.POST, Webhook.handle. rewrite Hp'. simpl.
  unfold Webhook.user_delete. simpl Webhook.users. rewrite find_app.
  assert (Hnone : find (fun u => Webhook.User.clerkId u
                                 =? Webhook.UserData.id data')
                       (Webhook.users db) = None).
  { destruct (find _ (Webhook.users db)) as [u|] eqn:E; [|reflexivity].
    exfalso. apply find_some in E. destruct E as [Hin Heq].
    apply String.eqb_eq in Heq. apply N2. rewrite <- Hid, <- Heq.
    now apply in_map. }
  rewrite Hnone. simpl. rewrite Hid, String.eqb_refl. simpl.
  rewrite filter_app. simpl. rewrite String.eqb_refl. simpl.
  rewrite app_nil_r.
  assert (Hu : filter (fun v => negb (Webhook.User.clerkId v
                                      =? Webhook.UserData.id data))
                      (Webhook.users db) = Webhook.users db).
  { apply filter_all. intros v Hv. apply negb_true_iff, String.eqb_neq.
    intros Heq. apply N2. rewrite <- Heq. now apply in_map. }
  assert (Hkeep : forall d, In d (Webhook.diagrams db) ->
                            (Webhook.Diagram.userId d =? Webhook.newId env)
                            = false).
  { intros d Hd. apply String.eqb_neq. intros Heq. apply N1.
    rewrite <- Heq. now apply H6. }
  assert (Hd : filter (fun d => negb (Webhook.Diagram.userId d
                                      =? Webhook.newId env))
                      (Webhook.diagrams db) = Webhook.diagrams db).
  { apply filter_all. intros d Hin. now rewrite (Hkeep d Hin). }
  assert (Hm : filter
                 (fun m =>
                    negb (existsb
                            (fun d => (Webhook.Diagram.userId d
                                       =? Webhook.newId env)
                                      && (Webhook.Diagram.id d
                                          =? Webhook.Message.diagramId m))
                            (Webhook.diagrams db)))
                 (Webhook.messages db) = Webhook.messages db).
  { apply filter_all. intros m _. apply negb_true_iff.
    destruct (existsb _ (Webhook.diagrams db)) eqn:E; [|reflexivity].
    apply existsb_exists in E. destruct E as [d [Hin Ht]].
    now rewrite (Hkeep d Hin) in Ht. }
  rewrite Hu, Hd, Hm. now destruct db.
Qed.

Lemma delete_undoes_create_witness :
  exists db',
    Webhook.POST WebhookSample.env
                 (Webhook.Payload "user.created" (Some WebhookSample.ada))
                 WebhookSample.noTables
    = (Webhook.succeeded, db')
    /\ Webhook.POST WebhookSample.later
                    (Webhook.Payload "user.deleted" (Some WebhookSample.ada))
                    db'
       = (Webhook.succeeded, WebhookSample.noTables).
Proof.
  exists WebhookSample.onlyAda. split; [reflexivity|].
  assert (Hc : Webhook.constraints WebhookSample.noTables).
  { unfold Webhook.constraints. simpl.
    repeat split; try constructor; intros ? []. }
  exact (delete_undoes_create
           WebhookSample.env WebhookSample.later
           WebhookSample.ada WebhookSample.ada
           (Some "ada@example.org")
           WebhookSample.noTables WebhookSample.onlyAda
           Webhook.succeeded Hc eq_refl eq_refl eq_refl eq_refl).
Defined.
